(** * Swarm consensus model: the per-agent decision engine

    A shallow embedding of [controllers/simple_robot.py],
    [simple_environment.py] and the stepping loop of [simple_simulation.py].

    Conventions of the embedding.
    - Python floats (positions, timers, thresholds, beliefs) are rationals
      [Q]; rounding of the floating-point operations is not modelled.
      Equality of such values is [Qeq] ([==]).
    - Python ints (Beta parameters, counters, decision flag, messages) are [Z].
    - The shared [message_queue] list is an explicit store: every operation
      that touches it takes the queue and returns the queue.
    - Every call to a random generator is an input of the step (record
      [Draws]); theorems quantify over all draws.
    - The numeric routines of numpy and scipy ([np.cos], [np.sin], [np.exp],
      [beta_dist.cdf]), the float power and the float product that [int]
      truncates are the methods of the class [NumLib];
      the state machine is verified for every instance, and the instance
      [RationalLib] gives the Beta distribution function its exact value at
      integer shape parameters (the trigonometric and exponential routines
      are rational stand-ins there, used only to run examples).
    - A Python exception is a value of [PyError]; the object mutated before
      the exception is still returned. *)

From Stdlib Require Import ZArith QArith Qminmax Qabs Qpower List Bool Lia Lqa.
From Stdlib Require Import Permutation.
Import ListNotations.

Local Open Scope Z_scope.
Local Open Scope Q_scope.

(** ** Numbers *)

Definition Qlt_bool (a b : Q) : bool := negb (Qle_bool b a).

(** [int(v)] on a float: truncation toward zero. *)
Definition py_int (v : Q) : Z := Z.quot (Qnum v) (Zpos (Qden v)).

(** [np.clip(v, lo, hi)] is [minimum(maximum(v, lo), hi)]. *)
Definition np_clip (v lo hi : Q) : Q := Qmin (Qmax v lo) hi.

(** [0 <= v <= 1] *)
Definition in_unit (v : Q) : bool := Qle_bool 0 v && Qle_bool v 1.

Inductive PyError : Type :=
  | IndexError
  | ValueError
  | ZeroDivisionError
  | OverflowError.

Class NumLib : Type := {
  np_cos : Q -> Q;
  np_sin : Q -> Q;
  np_exp : Q -> Q;
  (** [b ** e] on floats; Python raises [ZeroDivisionError] for a zero base
      with a negative exponent and [OverflowError] when the result is out of
      range *)
  float_pow : Q -> Q -> PyError + Q;
  (** the rounded float product [a * b], as [int(a * b)] reads it; [None]
      when the product is not finite, where [int] raises [OverflowError] *)
  float_mul : Q -> Q -> option Q;
  (** [beta_dist.cdf(v, a, b)]; meaningful for [a, b >= 1] *)
  beta_dist_cdf : Q -> Z -> Z -> Q
}.

(** Python indexing of a sequence of length [n]: [-n <= i < n], a negative
    index counts from the end, anything else raises [IndexError]. *)
Definition py_index {A : Type} (l : list A) (i : Z) : option A :=
  let n := Z.of_nat (length l) in
  if (0 <=? i)%Z && (i <? n)%Z then nth_error l (Z.to_nat i)
  else if (- n <=? i)%Z && (i <? 0)%Z then nth_error l (Z.to_nat (n + i))
  else None.

(** ** Enumerations *)

Inductive RobotState : Type :=
  | RANDOM_WALK
  | COLLISION_AVOIDANCE
  | GET_OBSERVATION
  | SEND_SAMPLE
  | RESET.

Inductive FeedbackStrategy : Type :=
  | NONE
  | POSITIVE
  | SOFT.

Definition RobotState_eq_dec (a b : RobotState) : {a = b} + {a <> b}.
Proof. decide equality. Defined.

(** ** The environment ([simple_environment.py]) *)

(** [grid] is the boolean [grid_size] x [grid_size] array, as a list of rows.
    The [patches] list only serves the drawing code and is left out. *)
Record SimpleEnvironment : Type := mkEnv {
  grid_size : Z;
  grid : list (list bool)
}.

(** [grid[i, j]] *)
Definition grid_get (g : list (list bool)) (i j : Z) : option bool :=
  match py_index g i with
  | Some row => py_index row j
  | None => None
  end.

Fixpoint list_set {A : Type} (l : list A) (n : nat) (v : A) : list A :=
  match l, n with
  | [], _ => []
  | _ :: t, O => v :: t
  | h :: t, S m => h :: list_set t m v
  end.

Definition py_position {A : Type} (l : list A) (i : Z) : option nat :=
  let n := Z.of_nat (length l) in
  if (0 <=? i)%Z && (i <? n)%Z then Some (Z.to_nat i)
  else if (- n <=? i)%Z && (i <? 0)%Z then Some (Z.to_nat (n + i))
  else None.

(** [grid[i, j] = True] *)
Definition grid_set_true (g : list (list bool)) (i j : Z)
  : option (list (list bool)) :=
  match py_position g i with
  | Some pi =>
      match nth_error g pi with
      | Some row =>
          match py_position row j with
          | Some pj => Some (list_set g pi (list_set row pj true))
          | None => None
          end
      | None => None
      end
  | None => None
  end.

Fixpoint mark_vibrating (g : list (list bool)) (ps : list (Z * Z))
  : option (list (list bool)) :=
  match ps with
  | [] => Some g
  | (i, j) :: rest =>
      match grid_set_true g i j with
      | Some g' => mark_vibrating g' rest
      | None => None
      end
  end.

(** [np.zeros((n, n), dtype=bool)]: negative dimensions are refused. *)
Definition np_zeros (n : Z) : PyError + list (list bool) :=
  if (n <? 0)%Z then inl ValueError
  else inr (repeat (repeat false (Z.to_nat n)) (Z.to_nat n)).

(** The two random calls of the constructor: the value of [random.randint]
    and the list returned by [random.sample]. *)
Record EnvDraws : Type := mkEnvDraws {
  randint : Z;
  sample : list (Z * Z)
}.

(** [SimpleEnvironment.__init__].  [random.randint(lo, hi)] raises
    [ValueError] on an empty range, [random.sample(positions, k)] raises it
    when [k] is negative or larger than the population. *)
Definition SimpleEnvironment_init (grid_size : Z) (d : EnvDraws)
  : PyError + SimpleEnvironment :=
  let num_squares := (grid_size * grid_size)%Z in
  let lo := py_int ((6 # 10) * inject_Z num_squares) in
  let hi := py_int ((8 # 10) * inject_Z num_squares) in
  if (hi <? lo)%Z then inl ValueError else
  let num_vibrating := randint d in
  match np_zeros grid_size with
  | inl e => inl e
  | inr zeros =>
      let positions := (Z.to_nat grid_size * Z.to_nat grid_size)%nat in
      if (num_vibrating <? 0)%Z || (Z.of_nat positions <? num_vibrating)%Z
      then inl ValueError
      else
        match mark_vibrating zeros (sample d) with
        | Some g => inr (mkEnv grid_size g)
        | None => inl IndexError
        end
  end.

(** ** The robot ([controllers/simple_robot.py]) *)

(** The dictionary stored in [last_measurement]. *)
Record Measurement : Type := mkMeasurement {
  m_robot_id : option Z;
  m_x : Q;
  m_y : Q;
  m_sample_value : Z;
  m_belief : Q;
  m_belief_conf : Q
}.

(** An entry of the shared queue: [(robot_id, message)]. *)
Definition Message : Type := (option Z * Z)%type.
Definition Queue : Type := list Message.

(** The attributes of a [SimpleRobot], in the order [__init__] sets them.
    [message_queue] is the shared store and lives outside the record;
    [sf_rd], a seeded generator that no method reads, is left out.
    [last_msg_index] starts at 0 and is only ever incremented, hence [nat]. *)
Record SimpleRobot : Type := mkRobot {
  x : Q;
  y : Q;
  env : option SimpleEnvironment;
  speed : Q;
  direction : Q;
  levy_scale : Q;
  state : RobotState;
  timer : Q;
  tau : Q;
  random_walk_duration : Q;
  random_walk_timer : Q;
  last_observation : option bool;
  observations : list bool;
  alpha : Z;
  beta : Z;
  belief_threshold : Q;
  p_c : Q;
  decision_flag : Z;
  min_swarm_count : Z;
  sends : Z;
  recvs : Z;
  feedback_strategy : FeedbackStrategy;
  eta : Q;
  us_exponent : Q;
  robot_id : option Z;
  last_msg_index : nat;
  last_measurement : option Measurement
}.

Definition set_x (v : Q) (r : SimpleRobot) : SimpleRobot :=
  mkRobot v (y r) (env r) (speed r) (direction r) (levy_scale r) (state r)
    (timer r) (tau r) (random_walk_duration r) (random_walk_timer r)
    (last_observation r) (observations r) (alpha r) (beta r)
    (belief_threshold r) (p_c r) (decision_flag r) (min_swarm_count r)
    (sends r) (recvs r) (feedback_strategy r) (eta r) (us_exponent r)
    (robot_id r) (last_msg_index r) (last_measurement r).

Definition set_y (v : Q) (r : SimpleRobot) : SimpleRobot :=
  mkRobot (x r) v (env r) (speed r) (direction r) (levy_scale r) (state r)
    (timer r) (tau r) (random_walk_duration r) (random_walk_timer r)
    (last_observation r) (observations r) (alpha r) (beta r)
    (belief_threshold r) (p_c r) (decision_flag r) (min_swarm_count r)
    (sends r) (recvs r) (feedback_strategy r) (eta r) (us_exponent r)
    (robot_id r) (last_msg_index r) (last_measurement r).

Definition set_direction (v : Q) (r : SimpleRobot) : SimpleRobot :=
  mkRobot (x r) (y r) (env r) (speed r) v (levy_scale r) (state r) (timer r)
    (tau r) (random_walk_duration r) (random_walk_timer r)
    (last_observation r) (observations r) (alpha r) (beta r)
    (belief_threshold r) (p_c r) (decision_flag r) (min_swarm_count r)
    (sends r) (recvs r) (feedback_strategy r) (eta r) (us_exponent r)
    (robot_id r) (last_msg_index r) (last_measurement r).

Definition set_state (v : RobotState) (r : SimpleRobot) : SimpleRobot :=
  mkRobot (x r) (y r) (env r) (speed r) (direction r) (levy_scale r) v
    (timer r) (tau r) (random_walk_duration r) (random_walk_timer r)
    (last_observation r) (observations r) (alpha r) (beta r)
    (belief_threshold r) (p_c r) (decision_flag r) (min_swarm_count r)
    (sends r) (recvs r) (feedback_strategy r) (eta r) (us_exponent r)
    (robot_id r) (last_msg_index r) (last_measurement r).

Definition set_timer (v : Q) (r : SimpleRobot) : SimpleRobot :=
  mkRobot (x r) (y r) (env r) (speed r) (direction r) (levy_scale r) (state r)
    v (tau r) (random_walk_duration r) (random_walk_timer r)
    (last_observation r) (observations r) (alpha r) (beta r)
    (belief_threshold r) (p_c r) (decision_flag r) (min_swarm_count r)
    (sends r) (recvs r) (feedback_strategy r) (eta r) (us_exponent r)
    (robot_id r) (last_msg_index r) (last_measurement r).

Definition set_tau (v : Q) (r : SimpleRobot) : SimpleRobot :=
  mkRobot (x r) (y r) (env r) (speed r) (direction r) (levy_scale r) (state r)
    (timer r) v (random_walk_duration r) (random_walk_timer r)
    (last_observation r) (observations r) (alpha r) (beta r)
    (belief_threshold r) (p_c r) (decision_flag r) (min_swarm_count r)
    (sends r) (recvs r) (feedback_strategy r) (eta r) (us_exponent r)
    (robot_id r) (last_msg_index r) (last_measurement r).

Definition set_random_walk_duration (v : Q) (r : SimpleRobot) : SimpleRobot :=
  mkRobot (x r) (y r) (env r) (speed r) (direction r) (levy_scale r) (state r)
    (timer r) (tau r) v (random_walk_timer r) (last_observation r)
    (observations r) (alpha r) (beta r) (belief_threshold r) (p_c r)
    (decision_flag r) (min_swarm_count r) (sends r) (recvs r)
    (feedback_strategy r) (eta r) (us_exponent r) (robot_id r)
    (last_msg_index r) (last_measurement r).

Definition set_random_walk_timer (v : Q) (r : SimpleRobot) : SimpleRobot :=
  mkRobot (x r) (y r) (env r) (speed r) (direction r) (levy_scale r) (state r)
    (timer r) (tau r) (random_walk_duration r) v (last_observation r)
    (observations r) (alpha r) (beta r) (belief_threshold r) (p_c r)
    (decision_flag r) (min_swarm_count r) (sends r) (recvs r)
    (feedback_strategy r) (eta r) (us_exponent r) (robot_id r)
    (last_msg_index r) (last_measurement r).

Definition set_last_observation (v : option bool) (r : SimpleRobot) : SimpleRobot :=
  mkRobot (x r) (y r) (env r) (speed r) (direction r) (levy_scale r) (state r)
    (timer r) (tau r) (random_walk_duration r) (random_walk_timer r) v
    (observations r) (alpha r) (beta r) (belief_threshold r) (p_c r)
    (decision_flag r) (min_swarm_count r) (sends r) (recvs r)
    (feedback_strategy r) (eta r) (us_exponent r) (robot_id r)
    (last_msg_index r) (last_measurement r).

Definition set_observations (v : list bool) (r : SimpleRobot) : SimpleRobot :=
  mkRobot (x r) (y r) (env r) (speed r) (direction r) (levy_scale r) (state r)
    (timer r) (tau r) (random_walk_duration r) (random_walk_timer r)
    (last_observation r) v (alpha r) (beta r) (belief_threshold r) (p_c r)
    (decision_flag r) (min_swarm_count r) (sends r) (recvs r)
    (feedback_strategy r) (eta r) (us_exponent r) (robot_id r)
    (last_msg_index r) (last_measurement r).

Definition set_alpha (v : Z) (r : SimpleRobot) : SimpleRobot :=
  mkRobot (x r) (y r) (env r) (speed r) (direction r) (levy_scale r) (state r)
    (timer r) (tau r) (random_walk_duration r) (random_walk_timer r)
    (last_observation r) (observations r) v (beta r) (belief_threshold r)
    (p_c r) (decision_flag r) (min_swarm_count r) (sends r) (recvs r)
    (feedback_strategy r) (eta r) (us_exponent r) (robot_id r)
    (last_msg_index r) (last_measurement r).

Definition set_beta (v : Z) (r : SimpleRobot) : SimpleRobot :=
  mkRobot (x r) (y r) (env r) (speed r) (direction r) (levy_scale r) (state r)
    (timer r) (tau r) (random_walk_duration r) (random_walk_timer r)
    (last_observation r) (observations r) (alpha r) v (belief_threshold r)
    (p_c r) (decision_flag r) (min_swarm_count r) (sends r) (recvs r)
    (feedback_strategy r) (eta r) (us_exponent r) (robot_id r)
    (last_msg_index r) (last_measurement r).

Definition set_p_c (v : Q) (r : SimpleRobot) : SimpleRobot :=
  mkRobot (x r) (y r) (env r) (speed r) (direction r) (levy_scale r) (state r)
    (timer r) (tau r) (random_walk_duration r) (random_walk_timer r)
    (last_observation r) (observations r) (alpha r) (beta r)
    (belief_threshold r) v (decision_flag r) (min_swarm_count r) (sends r)
    (recvs r) (feedback_strategy r) (eta r) (us_exponent r) (robot_id r)
    (last_msg_index r) (last_measurement r).

Definition set_decision_flag (v : Z) (r : SimpleRobot) : SimpleRobot :=
  mkRobot (x r) (y r) (env r) (speed r) (direction r) (levy_scale r) (state r)
    (timer r) (tau r) (random_walk_duration r) (random_walk_timer r)
    (last_observation r) (observations r) (alpha r) (beta r)
    (belief_threshold r) (p_c r) v (min_swarm_count r) (sends r) (recvs r)
    (feedback_strategy r) (eta r) (us_exponent r) (robot_id r)
    (last_msg_index r) (last_measurement r).

Definition set_min_swarm_count (v : Z) (r : SimpleRobot) : SimpleRobot :=
  mkRobot (x r) (y r) (env r) (speed r) (direction r) (levy_scale r) (state r)
    (timer r) (tau r) (random_walk_duration r) (random_walk_timer r)
    (last_observation r) (observations r) (alpha r) (beta r)
    (belief_threshold r) (p_c r) (decision_flag r) v (sends r) (recvs r)
    (feedback_strategy r) (eta r) (us_exponent r) (robot_id r)
    (last_msg_index r) (last_measurement r).

Definition set_sends (v : Z) (r : SimpleRobot) : SimpleRobot :=
  mkRobot (x r) (y r) (env r) (speed r) (direction r) (levy_scale r) (state r)
    (timer r) (tau r) (random_walk_duration r) (random_walk_timer r)
    (last_observation r) (observations r) (alpha r) (beta r)
    (belief_threshold r) (p_c r) (decision_flag r) (min_swarm_count r) v
    (recvs r) (feedback_strategy r) (eta r) (us_exponent r) (robot_id r)
    (last_msg_index r) (last_measurement r).

Definition set_recvs (v : Z) (r : SimpleRobot) : SimpleRobot :=
  mkRobot (x r) (y r) (env r) (speed r) (direction r) (levy_scale r) (state r)
    (timer r) (tau r) (random_walk_duration r) (random_walk_timer r)
    (last_observation r) (observations r) (alpha r) (beta r)
    (belief_threshold r) (p_c r) (decision_flag r) (min_swarm_count r)
    (sends r) v (feedback_strategy r) (eta r) (us_exponent r) (robot_id r)
    (last_msg_index r) (last_measurement r).

Definition set_feedback_strategy (v : FeedbackStrategy) (r : SimpleRobot) : SimpleRobot :=
  mkRobot (x r) (y r) (env r) (speed r) (direction r) (levy_scale r) (state r)
    (timer r) (tau r) (random_walk_duration r) (random_walk_timer r)
    (last_observation r) (observations r) (alpha r) (beta r)
    (belief_threshold r) (p_c r) (decision_flag r) (min_swarm_count r)
    (sends r) (recvs r) v (eta r) (us_exponent r) (robot_id r)
    (last_msg_index r) (last_measurement r).

Definition set_last_msg_index (v : nat) (r : SimpleRobot) : SimpleRobot :=
  mkRobot (x r) (y r) (env r) (speed r) (direction r) (levy_scale r) (state r)
    (timer r) (tau r) (random_walk_duration r) (random_walk_timer r)
    (last_observation r) (observations r) (alpha r) (beta r)
    (belief_threshold r) (p_c r) (decision_flag r) (min_swarm_count r)
    (sends r) (recvs r) (feedback_strategy r) (eta r) (us_exponent r)
    (robot_id r) v (last_measurement r).

Definition set_last_measurement (v : option Measurement) (r : SimpleRobot) : SimpleRobot :=
  mkRobot (x r) (y r) (env r) (speed r) (direction r) (levy_scale r) (state r)
    (timer r) (tau r) (random_walk_duration r) (random_walk_timer r)
    (last_observation r) (observations r) (alpha r) (beta r)
    (belief_threshold r) (p_c r) (decision_flag r) (min_swarm_count r)
    (sends r) (recvs r) (feedback_strategy r) (eta r) (us_exponent r)
    (robot_id r) (last_msg_index r) v.

Definition id_differs (a b : option Z) : bool :=
  match a, b with
  | Some u, Some v => negb (u =? v)%Z
  | None, None => false
  | _, _ => true
  end.

(** The random values one call of [update] may consume: the Cauchy variate
    of [np.random.standard_cauchy], the successive results of
    [random.uniform(0, 2 * np.pi)], the result of [random.choice] and that
    of [random.random]. *)
Record Draws : Type := mkDraws {
  standard_cauchy : Q;
  uniform_angle : nat -> Q;
  choice : bool;
  random_random : Q
}.

(** [SimpleRobot.__init__]; [direction0] is the drawn initial heading. *)
Definition SimpleRobot_init (x0 y0 : Q) (env0 : option SimpleEnvironment)
    (robot_id0 : option Z) (direction0 : Q) : SimpleRobot :=
  {| x := x0; y := y0; env := env0;
     speed := 5 # 100; direction := direction0; levy_scale := 5 # 100;
     state := RANDOM_WALK; timer := 0; tau := 2 # 10;
     random_walk_duration := 5; random_walk_timer := 0;
     last_observation := None; observations := [];
     alpha := 1; beta := 1; belief_threshold := 5 # 10;
     p_c := 95 # 100; decision_flag := -1; min_swarm_count := 100;
     sends := 0; recvs := 0;
     feedback_strategy := POSITIVE; eta := 1250; us_exponent := 2;
     robot_id := robot_id0;
     last_msg_index := 0; last_measurement := None |}.

Section Controller.

Context {lib : NumLib}.

Definition turnRandomAngle (angle : Q) (r : SimpleRobot) : SimpleRobot :=
  set_direction angle r.

(** The [while attempts < 8] loop of [performMovement].  [fuel] is
    [8 - attempts]; the result is the accepted candidate ([None] when the
    loop ran out, the [else] clause of the [while]), the robot with its
    last drawn heading, and the number of headings drawn. *)
Fixpoint movement_loop (fuel attempts : nat) (step_size dx dy : Q)
    (r : SimpleRobot) (d : Draws) : option (Q * Q) * SimpleRobot * nat :=
  match fuel with
  | O => (None, r, attempts)
  | S fuel' =>
      let next_x := x r + dx in
      let next_y := y r + dy in
      if in_unit next_x && in_unit next_y then (Some (next_x, next_y), r, attempts)
      else
        let r1 := turnRandomAngle (uniform_angle d attempts) r in
        let dx1 := step_size * np_cos (direction r1) in
        let dy1 := step_size * np_sin (direction r1) in
        movement_loop fuel' (S attempts) step_size dx1 dy1 r1 d
  end.

Definition performMovement (r : SimpleRobot) (dt : Q) (d : Draws)
  : SimpleRobot :=
  let step_size := Qabs (standard_cauchy d) * levy_scale r in
  let step_size := np_clip step_size (5 # 1000) (3 # 10) in
  let dx := step_size * np_cos (direction r) in
  let dy := step_size * np_sin (direction r) in
  match movement_loop 8 0 step_size dx dy r d with
  | (None, r1, k) => turnRandomAngle (uniform_angle d k) r1
  | (Some (next_x, next_y), r1, k) =>
      let r2 := set_y next_y (set_x next_x r1) in
      let r3 := set_timer (timer r2 + dt) r2 in
      let r4 := set_random_walk_timer (random_walk_timer r3 + dt) r3 in
      if Qle_bool (tau r4) (timer r4) then
        set_timer 0 (set_state GET_OBSERVATION r4)
      else if Qle_bool (random_walk_duration r4) (random_walk_timer r4) then
        set_random_walk_timer 0 (turnRandomAngle (uniform_angle d k) r4)
      else r4
  end.

Definition getObservation (r : SimpleRobot) (d : Draws) : PyError + bool :=
  match env r with
  | Some e =>
      match float_mul (x r) (inject_Z (grid_size e)) with
      | None => inl OverflowError
      | Some px =>
          let grid_x := Z.min (py_int px) (grid_size e - 1) in
          match float_mul (y r) (inject_Z (grid_size e)) with
          | None => inl OverflowError
          | Some py =>
              let grid_y := Z.min (py_int py) (grid_size e - 1) in
              match grid_get (grid e) grid_x grid_y with
              | Some b => inr b
              | None => inl IndexError
              end
          end
      end
  | None => inr (choice d)
  end.

(** [sample] is the raw bit.  In the [SOFT] branch the two divisions raise
    [ZeroDivisionError] on a zero denominator, and the float power raises
    what [float_pow] returns. *)
Definition calculateMessage (r : SimpleRobot) (sample : Z) (d : Draws)
  : PyError + Z :=
  match feedback_strategy r with
  | NONE => inr sample
  | POSITIVE =>
      if (decision_flag r =? -1)%Z then inr sample
      else inr (if (decision_flag r =? 0)%Z then 1 else 0)%Z
  | SOFT =>
      let s := (alpha r + beta r)%Z in
      if ((s ^ 2 * (s + 1) =? 0) || (s =? 0))%Z then inl ZeroDivisionError
      else
        let variance :=
          inject_Z (alpha r * beta r) / inject_Z (s ^ 2 * (s + 1)) in
        let belief := inject_Z (alpha r) / inject_Z s in
        match float_pow (Qabs ((5 # 10) - belief)) (us_exponent r) with
        | inl e => inl e
        | inr power =>
            let delta := np_exp (- eta r * variance) * power in
            let p := delta * (1 - belief) + (1 - delta) * inject_Z sample in
            inr (if Qlt_bool (random_random d) p then 1 else 0)%Z
        end
  end.

Definition sendSample (r : SimpleRobot) (q : Queue) (message : Z)
  : SimpleRobot * Queue :=
  let r1 := if (message =? 1)%Z then set_alpha (alpha r + 1)%Z r
            else set_beta (beta r + 1)%Z r in
  let r2 := set_sends (sends r1 + 1)%Z r1 in
  let belief := beta_dist_cdf (5 # 10) (alpha r2) (beta r2) in
  let belief_conf := Qmax belief (1 - belief) in
  let r3 :=
    set_last_measurement
      (Some (mkMeasurement (robot_id r2) (x r2) (y r2) message
               belief_conf belief_conf)) r2 in
  (r3, q ++ [(robot_id r3, message)]).

Definition get_last_measurement (r : SimpleRobot)
  : option Measurement * SimpleRobot :=
  match last_measurement r with
  | Some m => (Some m, set_last_measurement None r)
  | None => (None, r)
  end.

Definition recvSample (r : SimpleRobot) (message : Z) : SimpleRobot :=
  let r1 := if (message =? 1)%Z then set_alpha (alpha r + 1)%Z r
            else set_beta (beta r + 1)%Z r in
  set_recvs (recvs r1 + 1)%Z r1.

Definition check_decision (r : SimpleRobot) : SimpleRobot :=
  if (min_swarm_count r <=? sends r + recvs r)%Z then
    let belief := beta_dist_cdf (5 # 10) (alpha r) (beta r) in
    if Qlt_bool (p_c r) belief then set_decision_flag 1%Z r
    else if Qlt_bool belief (1 - p_c r) then set_decision_flag 0%Z r
    else set_decision_flag (-1)%Z r
  else r.

Definition get_belief_confidence (r : SimpleRobot) : Q :=
  let belief := beta_dist_cdf (5 # 10) (alpha r) (beta r) in
  Qmax belief (1 - belief).

(** The loop at the head of [update]:
    [while self.last_msg_index < len(self.message_queue)].  Each round
    advances the cursor by one, so [length q - last_msg_index r] rounds
    are enough; [drain] starts it with that many. *)
Fixpoint drain_loop (fuel : nat) (r : SimpleRobot) (q : Queue)
  : SimpleRobot :=
  match fuel with
  | O => r
  | S fuel' =>
      if (last_msg_index r <? length q)%nat then
        match nth_error q (last_msg_index r) with
        | Some (sender_id, msg) =>
            let r1 := if id_differs sender_id (robot_id r)
                      then recvSample r msg else r in
            drain_loop fuel' (set_last_msg_index (S (last_msg_index r1)) r1) q
        | None => r
        end
      else r
  end.

Definition drain (r : SimpleRobot) (q : Queue) : SimpleRobot :=
  drain_loop (length q - last_msg_index r) r q.

(** [update(dt)]: the step function.  Returns the robot, the queue and the
    exception raised, if any. *)
Definition update (r : SimpleRobot) (q : Queue) (dt : Q) (d : Draws)
  : SimpleRobot * Queue * option PyError :=
  let r := drain r q in
  let r := check_decision r in
  let r := set_timer (timer r + dt) r in
  match state r with
  | RANDOM_WALK =>
      let r := performMovement r dt d in
      let r := if Qle_bool (tau r) (timer r)
               then set_state GET_OBSERVATION r else r in
      (r, q, None)
  | COLLISION_AVOIDANCE =>
      let r := turnRandomAngle (uniform_angle d 0) r in
      (set_state RANDOM_WALK r, q, None)
  | GET_OBSERVATION =>
      match getObservation r d with
      | inl e => (r, q, Some e)
      | inr o =>
          let r := set_last_observation (Some o) r in
          let r := set_observations (observations r ++ [o]) r in
          (set_state SEND_SAMPLE r, q, None)
      end
  | SEND_SAMPLE =>
      let raw_message :=
        match last_observation r with Some true => 1%Z | _ => 0%Z end in
      match calculateMessage r raw_message d with
      | inl e => (r, q, Some e)
      | inr message =>
          let '(r, q) := sendSample r q message in
          let r := check_decision r in
          let r := set_state RANDOM_WALK r in
          (set_timer 0 r, q, None)
      end
  | RESET =>
      let r := set_state RANDOM_WALK r in
      (set_timer 0 r, q, None)
  end.

End Controller.

(** ** The Beta distribution function at integer shape parameters

    For integers [a, b >= 1] the regularized incomplete Beta function is a
    binomial tail: with [n = a + b - 1],
    [I_v(a, b) = sum_{j = a}^{n} C(n, j) v^j (1 - v)^(n - j)].
    [beta_cdf_exact] is that function itself, as a rational; the float that
    [beta_dist.cdf] returns is its rounding and can differ from it in the
    last digits.  Statements made with [RationalLib] are statements about
    the function, not about the rounding. *)

Fixpoint binom (n k : nat) : Z :=
  match n, k with
  | _, O => 1%Z
  | O, S _ => 0%Z
  | S n', S k' => (binom n' k' + binom n' k)%Z
  end.

Fixpoint qpow (v : Q) (k : nat) : Q :=
  match k with
  | O => 1
  | S k' => v * qpow v k'
  end.

(** [sum_{j = a}^{a + len - 1} f j] *)
Fixpoint sum_range (f : nat -> Z) (a len : nat) : Z :=
  match len with
  | O => 0%Z
  | S len' => (f a + sum_range f (S a) len')%Z
  end.

Fixpoint sumQ_range (f : nat -> Q) (a len : nat) : Q :=
  match len with
  | O => 0
  | S len' => f a + sumQ_range f (S a) len'
  end.

(** [sum_{j = a}^{n} C(n, j)] *)
Definition binom_tail (n a : nat) : Z := sum_range (binom n) a (S n - a).

Definition beta_cdf_exact (v : Q) (a b : Z) : Q :=
  let n := Z.to_nat (a + b - 1) in
  sumQ_range
    (fun j => inject_Z (binom n j) * qpow v j * qpow (1 - v) (n - j))
    (Z.to_nat a) (S n - Z.to_nat a).

(** Rational stand-ins for the float routines, so that the controller can
    be run on concrete inputs: Taylor polynomials for the cosine, the sine
    and the exponential, an integer power, and the exact product. *)
Definition cos_taylor (t : Q) : Q :=
  1 - t * t / 2 + t * t * t * t / 24.

Definition sin_taylor (t : Q) : Q :=
  t - t * t * t / 6 + t * t * t * t * t / 120.

Definition exp_taylor (t : Q) : Q :=
  let p u := 1 + u + u * u / 2 + u * u * u / 6 in
  if Qle_bool 0 t then p t else / p (- t).

Definition pow_int (b e : Q) : PyError + Q :=
  if Qeq_bool b 0 && Qlt_bool e 0 then inl ZeroDivisionError
  else inr (Qpower b (py_int e)).

#[export] Instance RationalLib : NumLib := {
  np_cos := cos_taylor;
  np_sin := sin_taylor;
  np_exp := exp_taylor;
  float_pow := pow_int;
  float_mul := fun a b => Some (a * b);
  beta_dist_cdf := beta_cdf_exact
}.

(** ** Vocabulary of the statements *)

(** The entries a drain has to deliver: those from the cursor on whose
    sender is another robot, in queue order. *)
Definition pending (r : SimpleRobot) (q : Queue) : list Message :=
  filter (fun m => id_differs (fst m) (robot_id r))
         (skipn (last_msg_index r) q).

Definition ones (bits : list Z) : Z :=
  Z.of_nat (length (filter (fun b => (b =? 1)%Z) bits)).

Definition others (bits : list Z) : Z :=
  Z.of_nat (length (filter (fun b => negb (b =? 1)%Z) bits)).

(** The bit of opposite polarity, as the update rule reads bits: 1 against
    anything else. *)
Definition flip_bit (b : Z) : Z := if (b =? 1)%Z then 0%Z else 1%Z.

(** One fold into the belief: a broadcast ([Sent]) or a receipt. *)
Inductive Fold : Type :=
  | Sent (bit : Z)
  | Received (bit : Z).

Definition fold_bit (f : Fold) : Z :=
  match f with Sent b => b | Received b => b end.

(** Receipt of a queue entry. *)
Definition recv_entry (r : SimpleRobot) (m : Message) : SimpleRobot :=
  recvSample r (snd m).

(** The Beta parameters account for the folded updates. *)
Definition belief_inv (r : SimpleRobot) : Prop :=
  ((alpha r - 1) + (beta r - 1) = sends r + recvs r)%Z
  /\ (1 <= alpha r)%Z /\ (1 <= beta r)%Z.

(** A queue with entries of three senders. *)
Definition three_entries : Queue :=
  [(Some 1%Z, 1%Z); (Some 0%Z, 0%Z); (Some 2%Z, 0%Z)].

Definition in_arena (r : SimpleRobot) : Prop :=
  0 <= x r /\ x r <= 1 /\ 0 <= y r /\ y r <= 1.

(** The step length of a call, after clipping. *)
Definition step_length (r : SimpleRobot) (d : Draws) : Q :=
  np_clip (Qabs (standard_cauchy d) * levy_scale r) (5 # 1000) (3 # 10).

(** The heading tried at the [k]-th test of a candidate position. *)
Definition heading_at (r : SimpleRobot) (d : Draws) (k : nat) : Q :=
  match k with
  | O => direction r
  | S j => uniform_angle d j
  end.

(** The belief state and the cursor are the same in both robots. *)
Definition belief_frame (r r' : SimpleRobot) : Prop :=
  alpha r' = alpha r /\ beta r' = beta r /\ sends r' = sends r
  /\ recvs r' = recvs r /\ last_msg_index r' = last_msg_index r
  /\ robot_id r' = robot_id r.

Section Runs.

Context {lib : NumLib}.

Definition apply_fold (s : SimpleRobot * Queue) (f : Fold)
  : SimpleRobot * Queue :=
  match f with
  | Sent b => sendSample (fst s) (snd s) b
  | Received b => (recvSample (fst s) b, snd s)
  end.

Definition apply_folds (fs : list Fold) (s : SimpleRobot * Queue)
  : SimpleRobot * Queue :=
  fold_left apply_fold fs s.

Definition recv_all (bits : list Z) (r : SimpleRobot) : SimpleRobot :=
  fold_left recvSample bits r.

(** The robot as the dispatch of [update] finds it: drained, decision
    re-evaluated, timer advanced. *)
Definition pre_dispatch (r : SimpleRobot) (q : Queue) (dt : Q) : SimpleRobot :=
  set_timer (timer (check_decision (drain r q)) + dt)
    (check_decision (drain r q)).

End Runs.

(** Components of the result of [update]. *)
Definition robot_of (res : SimpleRobot * Queue * option PyError) : SimpleRobot :=
  fst (fst res).
Definition queue_of (res : SimpleRobot * Queue * option PyError) : Queue :=
  snd (fst res).
Definition error_of (res : SimpleRobot * Queue * option PyError)
  : option PyError := snd res.

(** ** The driver ([simple_simulation.py])

    Only the part that steps the robots: [update_sim] calls [update] with
    [dt = 0.1] on each robot in turn, all on the one shared queue, and takes
    the measurement each leaves; the main loop repeats it until some robot
    holds a decision.  Plotting and the spreadsheet are left out.  An
    exception ends the run where it is raised.  [draws i] are the random
    values of the [i]-th robot of the list. *)
Section Driver.

Context {lib : NumLib}.

Fixpoint update_sim (robots : list SimpleRobot) (q : Queue)
    (draws : nat -> Draws) (i : nat)
  : list SimpleRobot * Queue * option PyError :=
  match robots with
  | [] => ([], q, None)
  | robot :: rest =>
      let dt := 1 # 10 in
      match update robot q dt (draws i) with
      | (robot', q', Some e) => (robot' :: rest, q', Some e)
      | (robot', q', None) =>
          let robot'' := snd (get_last_measurement robot') in
          let '(rest', q'', e) := update_sim rest q' draws (S i) in
          (robot'' :: rest', q'', e)
      end
  end.

(** [any(robot.decision_flag != -1 for robot in robots)] *)
Definition any_decided (robots : list SimpleRobot) : bool :=
  existsb (fun r => negb (decision_flag r =? -1)%Z) robots.

(** The [while] loop of [main], cut after [frames] rounds; [draws f i] are
    the random values of robot [i] in frame [f]. *)
Fixpoint simulate (frames : nat) (frame : nat) (robots : list SimpleRobot)
    (q : Queue) (draws : nat -> nat -> Draws)
  : list SimpleRobot * Queue * option PyError :=
  match frames with
  | O => (robots, q, None)
  | S frames' =>
      if any_decided robots then (robots, q, None)
      else
        match update_sim robots q (draws frame) 0 with
        | (robots', q', Some e) => (robots', q', Some e)
        | (robots', q', None) => simulate frames' (S frame) robots' q' draws
        end
  end.

End Driver.

(** What holds of every robot of a simulation, against the shared queue. *)
Definition sim_inv (q : Queue) (r : SimpleRobot) : Prop :=
  (last_msg_index r <= length q)%nat /\ in_arena r /\ belief_inv r.

(** What a drain leaves alone: everything but the Beta parameters, the
    receipt counter and the cursor. *)
Definition drain_frame (r r' : SimpleRobot) : Prop :=
  x r' = x r /\ y r' = y r /\ env r' = env r /\ direction r' = direction r
  /\ levy_scale r' = levy_scale r /\ state r' = state r
  /\ timer r' = timer r /\ tau r' = tau r
  /\ random_walk_duration r' = random_walk_duration r
  /\ random_walk_timer r' = random_walk_timer r
  /\ last_observation r' = last_observation r
  /\ p_c r' = p_c r /\ decision_flag r' = decision_flag r
  /\ min_swarm_count r' = min_swarm_count r /\ sends r' = sends r
  /\ feedback_strategy r' = feedback_strategy r
  /\ robot_id r' = robot_id r.

(** The raw bit the broadcast state derives from the last observation. *)
Definition raw_message (r : SimpleRobot) : Z :=
  match last_observation r with Some true => 1%Z | _ => 0%Z end.

(** Concrete inputs, used to run the controller: a robot in the middle of
    the arena heading along the first axis, and draws that make it step by
    [levy_scale]. *)
Definition centre_robot : SimpleRobot :=
  SimpleRobot_init (1 # 2) (1 # 2) None (Some 0%Z) 0.

Definition unit_draws : Draws := mkDraws 1 (fun _ => 0) true 0.

(** A robot that needs only four samples before it decides, as the driver
    sets it up by assigning [min_swarm_count] after construction. *)
Definition eager_robot : SimpleRobot := set_min_swarm_count 4%Z centre_robot.

(** [eager_robot] after five receipts of 0, a decision check, and three
    receipts of 1. *)
Definition swayed_robot : SimpleRobot :=
  recv_all [1; 1; 1]%Z (check_decision (recv_all [0; 0; 0; 0; 0]%Z eager_robot)).

(** ** More of the environment ([simple_environment.py]) *)

(** [np.sum(self.grid)]: the number of [True] cells. *)
Definition count_true (g : list (list bool)) : Z :=
  fold_right (fun row acc => (Z.of_nat (length (filter id row)) + acc)%Z)
             0%Z g.

(** [get_vibrating_ratio]: [np.sum(self.grid) / (grid_size * grid_size) *
    100].  The numerator is a numpy integer, so a zero denominator gives a
    non-finite float (nan or inf) and no exception: [None]. *)
Definition get_vibrating_ratio (e : SimpleEnvironment) : option Q :=
  let total := (grid_size e * grid_size e)%Z in
  if (total =? 0)%Z then None
  else Some (inject_Z (count_true (grid e)) / inject_Z total * 100).

(** A boolean array of shape [n] x [n]. *)
Definition square_grid (n : nat) (g : list (list bool)) : Prop :=
  length g = n /\ Forall (fun row => length row = n) g.

(** The float product of a coordinate of the arena with the grid size [g]
    is finite and not negative. *)
Definition mul_ok {lib : NumLib} (g : Z) : Prop :=
  forall a : Q, 0 <= a -> a <= 1 ->
    exists v, float_mul a (inject_Z g) = Some v /\ 0 <= v.

(** The float power of a base in [0, 1] with an exponent that is not
    negative raises nothing. *)
Definition pow_ok {lib : NumLib} : Prop :=
  forall b e : Q, 0 <= b -> b <= 1 -> 0 <= e ->
    exists v, float_pow b e = inr v.

(** The environment of a robot is absent, or a square grid of positive
    size whose products with the coordinates of the arena are finite. *)
Definition env_ok {lib : NumLib} (r : SimpleRobot) : Prop :=
  match env r with
  | None => True
  | Some e =>
      exists n : nat,
        (1 <= n)%nat /\ grid_size e = Z.of_nat n /\ square_grid n (grid e)
        /\ mul_ok (grid_size e)
  end.

(** Membership of a position in the list [random.sample] returned. *)
Definition sampled (ps : list (Z * Z)) (i j : Z) : bool :=
  existsb (fun p => (fst p =? i)%Z && (snd p =? j)%Z) ps.

(** The attributes a step never writes. *)
Definition same_config (r r' : SimpleRobot) : Prop :=
  env r' = env r /\ speed r' = speed r /\ levy_scale r' = levy_scale r
  /\ tau r' = tau r /\ random_walk_duration r' = random_walk_duration r
  /\ belief_threshold r' = belief_threshold r /\ p_c r' = p_c r
  /\ min_swarm_count r' = min_swarm_count r
  /\ feedback_strategy r' = feedback_strategy r /\ eta r' = eta r
  /\ us_exponent r' = us_exponent r /\ robot_id r' = robot_id r.

(** Everything but position, heading, state, timers and observations is the
    same in both robots. *)
Definition quiet (r r' : SimpleRobot) : Prop :=
  same_config r r'
  /\ alpha r' = alpha r /\ beta r' = beta r /\ sends r' = sends r
  /\ recvs r' = recvs r /\ decision_flag r' = decision_flag r
  /\ last_msg_index r' = last_msg_index r
  /\ last_measurement r' = last_measurement r.

(** The decision flag is one of its three values. *)
Definition flag_ok (r : SimpleRobot) : Prop :=
  decision_flag r = (-1)%Z \/ decision_flag r = 0%Z \/ decision_flag r = 1%Z.

(** A robot of a simulation whose steps cannot raise. *)
Definition sim_safe {lib : NumLib} (q : Queue) (r : SimpleRobot) : Prop :=
  sim_inv q r /\ env_ok r /\ 0 <= us_exponent r.

(** A robot about to broadcast. *)
Definition sender_robot : SimpleRobot := set_state SEND_SAMPLE centre_robot.

(** ** The field sampler ([worlds/environment.py]) *)

Module Worlds.

(** [vibrating_squares] is a Python set of cell indices; the list holds its
    elements, and only membership in it is ever asked. *)
Record Environment : Type := mkEnvironment {
  grid_size : Z;
  total_squares : Z;
  vibrating_squares : list Z;
  true_ratio : Q
}.

(** The random calls of [setup_environment]: the value of
    [np.random.randint] and the array [np.random.choice] returned. *)
Record WorldDraws : Type := mkWorldDraws {
  np_randint : Z;
  np_choice : list Z
}.

Definition Z_eq_dec : forall a b : Z, {a = b} + {a <> b} := Z.eq_dec.

(** [Environment.__init__] with [setup_environment].
    [np.random.randint(low, high)] raises [ValueError] when [low >= high];
    [np.random.choice(n, k, replace=False)] raises it for negative [k], for
    [k > n], and for [n <= 0] unless [k = 0]; the division of two Python
    ints raises [ZeroDivisionError]. *)
Definition Environment_init (grid_size : Z) (d : WorldDraws)
  : PyError + Environment :=
  let total_squares := (grid_size * grid_size)%Z in
  let low := py_int (inject_Z total_squares * (4 # 10)) in
  let high := (py_int (inject_Z total_squares * (6 # 10)) + 1)%Z in
  if (high <=? low)%Z then inl ValueError else
  let num_vibrating := np_randint d in
  if (num_vibrating <? 0)%Z then inl ValueError
  else if (total_squares <=? 0)%Z && negb (num_vibrating =? 0)%Z
  then inl ValueError
  else if (total_squares <? num_vibrating)%Z then inl ValueError
  else
    let vibrating_squares := nodup Z_eq_dec (np_choice d) in
    if (total_squares =? 0)%Z then inl ZeroDivisionError
    else
      inr (mkEnvironment grid_size total_squares vibrating_squares
             (inject_Z (Z.of_nat (length vibrating_squares))
              / inject_Z total_squares)).

Section Sampling.

Context {lib : NumLib}.

(** The index [idx] that [get_sample] computes for a position; [int] of a
    product that is not finite raises [OverflowError]. *)
Definition cell_index (e : Environment) (px py : Q) : PyError + Z :=
  match float_mul px (inject_Z (grid_size e)) with
  | None => inl OverflowError
  | Some vx =>
      let grid_x := py_int vx in
      match float_mul py (inject_Z (grid_size e)) with
      | None => inl OverflowError
      | Some vy =>
          let grid_y := py_int vy in
          let grid_x := Z.min (Z.max grid_x 0) (grid_size e - 1) in
          let grid_y := Z.min (Z.max grid_y 0) (grid_size e - 1) in
          inr (grid_y * grid_size e + grid_x)%Z
      end
  end.

Definition get_sample (e : Environment) (px py : Q) : PyError + Z :=
  match cell_index e px py with
  | inl err => inl err
  | inr idx =>
      inr (if existsb (Z.eqb idx) (vibrating_squares e) then 1%Z else 0%Z)
  end.

End Sampling.

Definition get_vibrating_squares (e : Environment) : list Z :=
  vibrating_squares e.

End Worlds.

(** * Proofs *)

(** ** Comparisons *)

Lemma Qlt_bool_iff (a b : Q) : Qlt_bool a b = true <-> a < b.
Proof.
  unfold Qlt_bool. rewrite negb_true_iff.
  split; intro H.
  - apply Qnot_le_lt. intro Hle. apply Qle_bool_iff in Hle. congruence.
  - destruct (Qle_bool b a) eqn:E; [|reflexivity].
    apply Qle_bool_iff in E. exfalso. apply (Qlt_not_le _ _ H E).
Qed.

Lemma Qlt_bool_false (a b : Q) : Qlt_bool a b = false <-> b <= a.
Proof.
  unfold Qlt_bool. rewrite negb_false_iff. apply Qle_bool_iff.
Qed.

Lemma in_unit_iff (v : Q) : in_unit v = true <-> 0 <= v /\ v <= 1.
Proof.
  unfold in_unit. rewrite andb_true_iff, !Qle_bool_iff. reflexivity.
Qed.

(** ** Frame lemmas *)

Section Frames.

Context {lib : NumLib}.

Lemma drain_frame_refl (r : SimpleRobot) : drain_frame r r.
Proof. unfold drain_frame; repeat split. Qed.

Lemma drain_frame_trans (a b c : SimpleRobot) :
  drain_frame a b -> drain_frame b c -> drain_frame a c.
Proof.
  unfold drain_frame; intros H1 H2.
  repeat match goal with H : _ /\ _ |- _ => destruct H end.
  repeat split; congruence.
Qed.

Lemma recvSample_frame (r : SimpleRobot) (m : Z) :
  drain_frame r (recvSample r m).
Proof.
  unfold drain_frame, recvSample; destruct (m =? 1)%Z; repeat split.
Qed.

Lemma drain_loop_frame (fuel : nat) :
  forall r q, drain_frame r (drain_loop fuel r q).
Proof.
  induction fuel as [|fuel IH]; intros r q; simpl.
  - apply drain_frame_refl.
  - destruct (last_msg_index r <? length q)%nat; [|apply drain_frame_refl].
    destruct (nth_error q (last_msg_index r)) as [[sender msg]|];
      [|apply drain_frame_refl].
    eapply drain_frame_trans; [|apply IH].
    destruct (id_differs sender (robot_id r)).
    + eapply drain_frame_trans; [apply recvSample_frame|].
      unfold drain_frame; repeat split.
    + unfold drain_frame; repeat split.
Qed.

Lemma drain_is_frame (r : SimpleRobot) (q : Queue) :
  drain_frame r (drain r q).
Proof. apply drain_loop_frame. Qed.

Lemma check_decision_cases (r : SimpleRobot) :
  check_decision r = r
  \/ check_decision r = set_decision_flag 1%Z r
  \/ check_decision r = set_decision_flag 0%Z r
  \/ check_decision r = set_decision_flag (-1)%Z r.
Proof.
  unfold check_decision.
  destruct (min_swarm_count r <=? sends r + recvs r)%Z; [|now left].
  destruct (Qlt_bool _ _); [now right; left|].
  destruct (Qlt_bool _ _); [now right; right; left|now right; right; right].
Qed.

(** [check_decision] writes the decision flag and nothing else. *)
Lemma check_decision_frame (r : SimpleRobot) :
  exists f, check_decision r = set_decision_flag f r.
Proof.
  destruct (check_decision_cases r) as [H|[H|[H|H]]]; rewrite H; eauto.
  exists (decision_flag r). destruct r; reflexivity.
Qed.

Lemma check_decision_position (r : SimpleRobot) :
  x (check_decision r) = x r /\ y (check_decision r) = y r.
Proof.
  destruct (check_decision_frame r) as [f ->]. split; reflexivity.
Qed.

Lemma check_decision_timer (r : SimpleRobot) :
  timer (check_decision r) = timer r /\ state (check_decision r) = state r
  /\ tau (check_decision r) = tau r.
Proof.
  destruct (check_decision_frame r) as [f ->]. repeat split; reflexivity.
Qed.

Lemma sendSample_position (r : SimpleRobot) (q : Queue) (m : Z) :
  x (fst (sendSample r q m)) = x r /\ y (fst (sendSample r q m)) = y r.
Proof.
  unfold sendSample; destruct (m =? 1)%Z; split; reflexivity.
Qed.

End Frames.

Ltac frame_fields H :=
  unfold drain_frame in H;
  destruct H as (Fx & Fy & Fenv & Fdir & Flevy & Fstate & Ftimer & Ftau
                 & Fdur & Frwt & Flast & Fpc & Fflag & Fmin & Fsends
                 & Ffs & Fid).

(** ** Exceptions *)

(** A step raises only in the observation state (a grid index out of
    range, or a product that is not finite), or in the broadcast state
    under [SOFT] feedback (a division by zero, or what the float power
    raises). *)
Lemma update_raises_only (lib : NumLib) (r : SimpleRobot) (q : Queue)
    (dt : Q) (d : Draws) (e : PyError) :
  error_of (update r q dt d) = Some e ->
  (state r = GET_OBSERVATION /\ (e = IndexError \/ e = OverflowError))
  \/ (state r = SEND_SAMPLE /\ feedback_strategy r = SOFT).
Proof.
  pose proof (drain_is_frame r q) as F. frame_fields F.
  destruct (check_decision_frame (drain r q)) as [f Hf].
  unfold update, error_of. rewrite Hf.
  cbn [state set_timer set_decision_flag]. rewrite Fstate.
  set (r0 := set_timer _ _).
  assert (Hfs : feedback_strategy r0 = feedback_strategy r)
    by (subst r0; cbn; auto).
  destruct (state r); cbn [snd]; try discriminate.
  - destruct (getObservation r0 d) as [e0|o] eqn:G; cbn [snd];
      [|discriminate].
    intro E; inversion E; subst e0. left. split; [reflexivity|].
    unfold getObservation in G. destruct (env r0); [|discriminate].
    destruct (float_mul (x r0) _); [|inversion G; auto].
    destruct (float_mul (y r0) _); [|inversion G; auto].
    destruct (grid_get _ _ _); [discriminate|inversion G; auto].
  - destruct (calculateMessage r0 _ d) as [e0|m] eqn:C.
    + intros _. right. split; [reflexivity|].
      unfold calculateMessage in C. rewrite Hfs in C.
      destruct (feedback_strategy r); [discriminate| |reflexivity].
      destruct (decision_flag r0 =? -1)%Z; discriminate.
    + destruct (sendSample _ _ _); discriminate.
Qed.

(** ** Movement *)

Section Movement.

Context {lib : NumLib}.

Lemma set_direction_same (r : SimpleRobot) : r = set_direction (direction r) r.
Proof. destruct r; reflexivity. Qed.

Lemma movement_loop_spec (fuel : nat) :
  forall k s dx dy r d res r1 k',
    movement_loop fuel k s dx dy r d = (res, r1, k') ->
    (exists h, r1 = set_direction h r)
    /\ match res with
       | None => k' = (k + fuel)%nat
       | Some (nx, ny) =>
           in_unit nx = true /\ in_unit ny = true /\ (k' < k + fuel)%nat
           /\ ((k' = k /\ nx = x r + dx /\ ny = y r + dy)
               \/ (exists j, k' = S j /\ (k <= j)%nat
                   /\ nx = x r + s * np_cos (uniform_angle d j)
                   /\ ny = y r + s * np_sin (uniform_angle d j)))
       end.
Proof.
  induction fuel as [|fuel IH]; intros k s dx dy r d res r1 k' E; simpl in E.
  - inversion E; subst. split; [eexists; apply set_direction_same|lia].
  - destruct (in_unit (x r + dx) && in_unit (y r + dy)) eqn:B.
    + inversion E; subst. apply andb_true_iff in B as [Bx By].
      split; [eexists; apply set_direction_same|].
      repeat split; auto; try lia.
    + apply IH in E as [[h Hh] E]. split.
      * exists h. rewrite Hh. reflexivity.
      * destruct res as [[nx ny]|]; [|lia].
        destruct E as (Bx & By & Hk & Hc). repeat split; auto; try lia.
        right. destruct Hc as [(-> & Hx & Hy)|(j & -> & Hj & Hx & Hy)].
        -- exists k. repeat split; auto.
        -- exists j. repeat split; auto; lia.
Qed.

(** [performMovement] either leaves the position alone or commits a
    candidate that passed the arena test, reached within eight tests. *)
Lemma performMovement_position (r : SimpleRobot) (dt : Q) (d : Draws) :
  let r' := performMovement r dt d in
  (x r' = x r /\ y r' = y r)
  \/ (exists k, (k < 8)%nat
      /\ x r' = x r + step_length r d * np_cos (heading_at r d k)
      /\ y r' = y r + step_length r d * np_sin (heading_at r d k)
      /\ in_unit (x r') = true /\ in_unit (y r') = true).
Proof.
  unfold performMovement. fold (step_length r d).
  destruct (movement_loop _ _ _ _ _ _ _) as [[res r1] k] eqn:E.
  apply movement_loop_spec in E as [[h Hh] E].
  destruct res as [[nx ny]|].
  - right. destruct E as (Bx & By & Hk & Hc).
    assert (Hpos : exists j, (j < 8)%nat
              /\ nx = x r + step_length r d * np_cos (heading_at r d j)
              /\ ny = y r + step_length r d * np_sin (heading_at r d j)).
    { destruct Hc as [(-> & Hx & Hy)|(j & -> & Hj & Hx & Hy)].
      - exists 0%nat. simpl. auto with arith.
      - exists (S j). simpl. repeat split; auto. }
    destruct Hpos as (j & Hj & Hx & Hy). exists j.
    repeat match goal with |- context [if ?c then _ else _] => destruct c end;
      cbn; repeat split; auto.
  - left. subst r1. cbn. auto.
Qed.

Lemma update_position (r : SimpleRobot) (q : Queue) (dt : Q) (d : Draws) :
  let r' := robot_of (update r q dt d) in
  (x r' = x r /\ y r' = y r)
  \/ (state r = RANDOM_WALK
      /\ exists k, (k < 8)%nat
      /\ x r' = x r + step_length r d * np_cos (heading_at r d k)
      /\ y r' = y r + step_length r d * np_sin (heading_at r d k)
      /\ in_unit (x r') = true /\ in_unit (y r') = true).
Proof.
  pose proof (drain_is_frame r q) as F. frame_fields F.
  destruct (check_decision_frame (drain r q)) as [f Hf].
  unfold update. rewrite Hf. cbn [state set_timer set_decision_flag].
  rewrite Fstate.
  set (r0 := set_timer _ _).
  assert (Hx0 : x r0 = x r) by (subst r0; cbn; auto).
  assert (Hy0 : y r0 = y r) by (subst r0; cbn; auto).
  assert (Hd0 : direction r0 = direction r) by (subst r0; cbn; auto).
  assert (Hl0 : levy_scale r0 = levy_scale r) by (subst r0; cbn; auto).
  destruct (state r) eqn:S.
  - pose proof (performMovement_position r0 dt d) as P. cbv zeta in P.
    assert (Hs : step_length r0 d = step_length r d)
      by (unfold step_length; rewrite Hl0; reflexivity).
    assert (Hh : forall k, heading_at r0 d k = heading_at r d k)
      by (intros [|k]; simpl; auto).
    rewrite Hs, Hx0, Hy0 in P.
    destruct P as [[Px Py]|(k & Hk & Px & Py & Bx & By)].
    + left. unfold robot_of; cbn [fst].
      destruct (Qle_bool _ _); cbn; auto.
    + right. split; [reflexivity|]. exists k. rewrite <- Hh.
      unfold robot_of; cbn [fst].
      destruct (Qle_bool _ _); cbn; auto.
  - left. unfold robot_of; cbn. auto.
  - left. unfold robot_of.
    destruct (getObservation r0 d); cbn; auto.
  - left. unfold robot_of.
    destruct (calculateMessage r0 _ d) as [e|m]; cbn [fst]; [auto|].
    pose proof (sendSample_position r0 q m) as [Sx Sy].
    destruct (sendSample r0 q m) as [r1 q1]. cbn [fst] in *.
    pose proof (check_decision_position r1) as [Cx Cy].
    cbn. split; congruence.
  - left. unfold robot_of; cbn. auto.
Qed.

End Movement.

(** ** The unit square and the frame of a step *)

Lemma update_in_arena (lib : NumLib) (r : SimpleRobot) (q : Queue) (dt : Q)
    (d : Draws) :
  in_arena r -> in_arena (robot_of (update r q dt d)).
Proof.
  intro A.
  destruct (update_position r q dt d)
    as [[Hx Hy]|(_ & k & _ & _ & _ & Bx & By)].
  - unfold in_arena in *. rewrite Hx, Hy. exact A.
  - apply in_unit_iff in Bx, By. unfold in_arena. tauto.
Qed.



(** C10. Only the random walk moves the robot: in the observation, broadcast,
    avoidance and reset states a step leaves the position as it was. *)
Theorem update_moves_only_in_random_walk :
  forall (lib : NumLib) (r : SimpleRobot) (q : Queue) (dt : Q) (d : Draws),
    state r <> RANDOM_WALK ->
    x (robot_of (update r q dt d)) = x r
    /\ y (robot_of (update r q dt d)) = y r.
Proof.
  intros lib r q dt d S.
  destruct (update_position r q dt d) as [H|[H _]]; [exact H|contradiction].
Qed.

Lemma update_moves_only_in_random_walk_witness :
  x (robot_of (update (set_state GET_OBSERVATION centre_robot) []
                 (1 # 10) unit_draws)) = 1 # 2
  /\ y (robot_of (update (set_state GET_OBSERVATION centre_robot) []
                    (1 # 10) unit_draws)) = 1 # 2.
Proof.
  apply (update_moves_only_in_random_walk RationalLib
           (set_state GET_OBSERVATION centre_robot) [] (1 # 10) unit_draws).
  cbn. discriminate.
Defined.

(** ** The observation timer *)

Section Timer.

Context {lib : NumLib}.

Lemma performMovement_timer (r : SimpleRobot) (dt : Q) (d : Draws) :
  timer (performMovement r dt d) = timer r
  \/ timer (performMovement r dt d) = timer r + dt
  \/ timer (performMovement r dt d) = 0.
Proof.
  unfold performMovement.
  destruct (movement_loop _ _ _ _ _ _ _) as [[res r1] k] eqn:E.
  apply movement_loop_spec in E as [[h ->] _].
  destruct res as [[nx ny]|]; [|left; reflexivity].
  repeat match goal with |- context [if ?c then _ else _] => destruct c end;
    cbn; auto.
Qed.

(** Before the dispatch the timer has gone up by [dt]; a random-walk step
    whose move is committed adds [dt] once more. *)
Lemma update_explore_timer (r : SimpleRobot) (q : Queue) (dt : Q) (d : Draws) :
  state r = RANDOM_WALK ->
  let r' := robot_of (update r q dt d) in
  timer r' = timer r + dt
  \/ timer r' = timer r + dt + dt
  \/ timer r' = 0.
Proof.
  intros S r'. subst r'.
  pose proof (drain_is_frame r q) as F. frame_fields F.
  destruct (check_decision_frame (drain r q)) as [f Hf].
  unfold update. rewrite Hf. cbn [state timer set_timer set_decision_flag].
  rewrite Fstate, S, Ftimer.
  set (r0 := set_timer _ _).
  assert (T0 : timer r0 = timer r + dt) by reflexivity.
  destruct (performMovement_timer r0 dt d) as [H|[H|H]];
    unfold robot_of; cbn [fst]; destruct (Qle_bool _ _); cbn [timer set_state];
    rewrite H; rewrite ?T0; auto.
Qed.

End Timer.

(** C9. The timer is advanced by [dt] ahead of the dispatch, but that is not
    the only advance of a step: a random-walk step that commits its move adds
    [dt] a second time inside [performMovement].  Here the robot starts in
    [RANDOM_WALK] with timer 0 and interval 0.2 and steps with [dt = 0.05];
    no reset fires, it stays in [RANDOM_WALK], and its timer reads 0.1. *)
Theorem explore_step_counts_dt_twice :
  let r := centre_robot in
  let dt := 5 # 100 in
  let r' := robot_of (update r [] dt unit_draws) in
  state r = RANDOM_WALK /\ state r' = RANDOM_WALK
  /\ x r' == 55 # 100 /\ y r' == 1 # 2
  /\ timer r' < tau r'
  /\ timer r' == timer r + dt + dt
  /\ ~ timer r' == timer r + dt.
Proof.
  cbv zeta. repeat split; try reflexivity.
  intro H. vm_compute in H. discriminate H.
Qed.

(** ** Feedback and decisions *)

Section Decisions.

Context {lib : NumLib}.

Lemma calculateMessage_positive (r : SimpleRobot) (raw : Z) (d : Draws) :
  feedback_strategy r = POSITIVE ->
  calculateMessage r raw d =
    inr (if (decision_flag r =? -1)%Z then raw
         else if (decision_flag r =? 0)%Z then 1%Z else 0%Z).
Proof.
  intro P. unfold calculateMessage. rewrite P.
  destruct (decision_flag r =? -1)%Z; reflexivity.
Qed.

Lemma pre_dispatch_frame (r : SimpleRobot) (q : Queue) (dt : Q) :
  let r0 := pre_dispatch r q dt in
  state r0 = state r /\ timer r0 = timer r + dt
  /\ robot_id r0 = robot_id r /\ last_observation r0 = last_observation r
  /\ feedback_strategy r0 = feedback_strategy r
  /\ decision_flag r0 = decision_flag (check_decision (drain r q))
  /\ alpha r0 = alpha (drain r q) /\ beta r0 = beta (drain r q)
  /\ sends r0 = sends r /\ recvs r0 = recvs (drain r q)
  /\ last_msg_index r0 = last_msg_index (drain r q).
Proof.
  pose proof (drain_is_frame r q) as F. frame_fields F.
  unfold pre_dispatch.
  destruct (check_decision_frame (drain r q)) as [f Hf].
  rewrite Hf. cbn. rewrite Ftimer. repeat split; auto.
Qed.

Lemma sendSample_queue (r : SimpleRobot) (q : Queue) (m : Z) :
  snd (sendSample r q m) = q ++ [(robot_id r, m)].
Proof. unfold sendSample. destruct (m =? 1)%Z; reflexivity. Qed.

(** The entry a broadcast step appends under [POSITIVE] feedback. *)
Lemma update_positive_broadcast (r : SimpleRobot) (q : Queue) (dt : Q)
    (d : Draws) :
  feedback_strategy r = POSITIVE ->
  state r = SEND_SAMPLE ->
  let held := decision_flag (check_decision (drain r q)) in
  queue_of (update r q dt d) =
    q ++ [(robot_id r,
           if (held =? -1)%Z then raw_message r
           else if (held =? 0)%Z then 1%Z else 0%Z)].
Proof.
  intros P S held. subst held.
  destruct (pre_dispatch_frame r q dt)
    as (Hs & _ & Hid & Hlast & Hfs & Hflag & _).
  unfold update; cbv zeta. fold (pre_dispatch r q dt).
  rewrite Hs, S, Hlast. fold (raw_message r).
  rewrite calculateMessage_positive by congruence.
  rewrite Hflag.
  pose proof (sendSample_queue (pre_dispatch r q dt) q
    (if (decision_flag (check_decision (drain r q)) =? -1)%Z
     then raw_message r
     else if (decision_flag (check_decision (drain r q)) =? 0)%Z
          then 1%Z else 0%Z)) as Q.
  destruct (sendSample _ _ _) as [r1 q1]. cbn [snd] in Q.
  unfold queue_of; cbn [fst snd]. rewrite Q, Hid. reflexivity.
Qed.

End Decisions.

(** C1. Under [POSITIVE] feedback the message is the raw bit while the robot
    is undecided (flag -1).  With flag 0, the decision [check_decision] takes
    when the belief value is below [1 - p_c], the message is 1 whatever the
    raw bit; with flag 1, the decision taken when the belief value is above
    [p_c], it is 0.  The entry a broadcast step appends to the queue carries
    that message, computed from the flag held after the drain of the step. *)
Theorem positive_feedback_message :
  forall (lib : NumLib) (r : SimpleRobot) (d : Draws),
    feedback_strategy r = POSITIVE ->
    (forall raw : Z,
        (decision_flag r = (-1)%Z -> calculateMessage r raw d = inr raw)
        /\ (decision_flag r = 0%Z -> calculateMessage r raw d = inr 1%Z)
        /\ (decision_flag r = 1%Z -> calculateMessage r raw d = inr 0%Z))
    /\ (forall (q : Queue) (dt : Q),
           state r = SEND_SAMPLE ->
           let held := decision_flag (check_decision (drain r q)) in
           let sent := queue_of (update r q dt d) in
           (held = (-1)%Z -> sent = q ++ [(robot_id r, raw_message r)])
           /\ (held = 0%Z -> sent = q ++ [(robot_id r, 1%Z)])
           /\ (held = 1%Z -> sent = q ++ [(robot_id r, 0%Z)])).
Proof.
  intros lib r d P. split.
  - intro raw. rewrite (calculateMessage_positive r raw d P).
    repeat split; intros ->; reflexivity.
  - intros q dt S held sent. subst sent.
    rewrite (update_positive_broadcast r q dt d P S). fold held.
    repeat split; intros ->; reflexivity.
Qed.

Lemma positive_feedback_message_witness :
  calculateMessage (set_decision_flag 0%Z centre_robot) 0%Z unit_draws
  = inr 1%Z.
Proof.
  refine (proj1 (proj2 (proj1
    (positive_feedback_message RationalLib (set_decision_flag 0%Z centre_robot)
       unit_draws _) 0%Z)) _); reflexivity.
Defined.

(** C3. Decisions are revocable: once the robot has the minimum number of
    samples, a belief value strictly between [1 - p_c] and [p_c] makes
    [check_decision] set the flag to -1, whatever decision was held. *)
Theorem check_decision_revocable :
  forall (lib : NumLib) (r : SimpleRobot),
    (min_swarm_count r <= sends r + recvs r)%Z ->
    1 - p_c r < beta_dist_cdf (5 # 10) (alpha r) (beta r) ->
    beta_dist_cdf (5 # 10) (alpha r) (beta r) < p_c r ->
    decision_flag (check_decision r) = (-1)%Z.
Proof.
  intros lib r N Lo Hi. unfold check_decision.
  apply Z.leb_le in N. rewrite N.
  destruct (Qlt_bool (p_c r) _) eqn:A.
  - apply Qlt_bool_iff in A. exfalso. apply (Qlt_irrefl (p_c r)).
    eapply Qlt_trans; eassumption.
  - destruct (Qlt_bool _ (1 - p_c r)) eqn:B; [|reflexivity].
    apply Qlt_bool_iff in B. exfalso. apply (Qlt_irrefl (1 - p_c r)).
    eapply Qlt_trans; eassumption.
Qed.

Lemma check_decision_revocable_witness :
  decision_flag (check_decision (recv_all [0; 0; 0; 0; 0]%Z eager_robot)) = 1%Z
  /\ decision_flag swayed_robot = 1%Z
  /\ decision_flag (check_decision swayed_robot) = (-1)%Z.
Proof.
  split; [reflexivity|]. split; [reflexivity|].
  apply (check_decision_revocable RationalLib swayed_robot).
  - vm_compute. discriminate.
  - vm_compute. reflexivity.
  - vm_compute. reflexivity.
Defined.

(** C2. From the prior (1, 1), with minimum sample count 4 and
    [p_c = 0.95], folding the bits 1, 1, 1, 1 gives alpha = 5 and beta = 1;
    the belief value is 1/32 = 0.03125, below [1 - p_c = 0.05]; and
    [check_decision] then moves the flag from undecided (-1) to 0, the
    decision of its branch for a belief value below [1 - p_c]. *)
Theorem four_ones_decide :
  forall (x0 y0 : Q) (env0 : option SimpleEnvironment) (id0 : option Z)
         (direction0 : Q),
    let prior :=
      set_min_swarm_count 4%Z (SimpleRobot_init x0 y0 env0 id0 direction0) in
    let r := recv_all [1; 1; 1; 1]%Z prior in
    alpha prior = 1%Z /\ beta prior = 1%Z /\ p_c prior == 95 # 100
    /\ decision_flag prior = (-1)%Z
    /\ alpha r = 5%Z /\ beta r = 1%Z
    /\ beta_dist_cdf (5 # 10) (alpha r) (beta r) == 1 # 32
    /\ beta_dist_cdf (5 # 10) (alpha r) (beta r) < 1 - p_c r
    /\ decision_flag (check_decision r) = 0%Z
    /\ decision_flag (check_decision r) <> (-1)%Z.
Proof.
  intros. repeat split; try reflexivity. discriminate.
Qed.

(** ** Draining the queue *)

Lemma set_last_msg_index_same (r : SimpleRobot) :
  set_last_msg_index (last_msg_index r) r = r.
Proof. destruct r; reflexivity. Qed.

Lemma recv_entries_cursor (l : list Message) :
  forall (k : nat) (r : SimpleRobot),
    fold_left recv_entry l (set_last_msg_index k r)
    = set_last_msg_index k (fold_left recv_entry l r).
Proof.
  induction l as [|m l IH]; intros k r; simpl; [reflexivity|].
  rewrite <- IH. f_equal.
  unfold recv_entry, recvSample. destruct (snd m =? 1)%Z; reflexivity.
Qed.

Lemma skipn_nth_error {A : Type} (l : list A) :
  forall (n : nat) (a : A),
    nth_error l n = Some a -> skipn n l = a :: skipn (S n) l.
Proof.
  induction l as [|h t IH]; intros [|n] a E; simpl in *; try discriminate.
  - inversion E; reflexivity.
  - apply IH in E. rewrite E. destruct t; reflexivity.
Qed.

Lemma recvSample_cursor (r : SimpleRobot) (m : Z) :
  last_msg_index (recvSample r m) = last_msg_index r
  /\ robot_id (recvSample r m) = robot_id r.
Proof. unfold recvSample; destruct (m =? 1)%Z; split; reflexivity. Qed.

Lemma set_last_msg_index_twice (j k : nat) (r : SimpleRobot) :
  set_last_msg_index j (set_last_msg_index k r) = set_last_msg_index j r.
Proof. reflexivity. Qed.

(** The loop delivers the pending entries in queue order, each once, and
    stops with the cursor on the length of the queue. *)
Lemma drain_loop_spec (fuel : nat) :
  forall (r : SimpleRobot) (q : Queue),
    (last_msg_index r + fuel = length q)%nat ->
    drain_loop fuel r q
    = set_last_msg_index (length q) (fold_left recv_entry (pending r q) r).
Proof.
  induction fuel as [|fuel IH]; intros r q L.
  - simpl. unfold pending. rewrite Nat.add_0_r in L. rewrite L.
    rewrite skipn_all. simpl. rewrite <- L. symmetry.
    apply set_last_msg_index_same.
  - cbn [drain_loop].
    assert (B : (last_msg_index r <? length q)%nat = true)
      by (apply Nat.ltb_lt; lia).
    rewrite B.
    destruct (nth_error q (last_msg_index r)) as [[sender msg]|] eqn:E.
    2:{ apply nth_error_None in E. lia. }
    destruct (recvSample_cursor r msg) as [Rc Rid].
    unfold pending at 1. rewrite (skipn_nth_error _ _ _ E).
    cbn [filter fst].
    destruct (id_differs sender (robot_id r)) eqn:D.
    + rewrite IH by (cbn [last_msg_index set_last_msg_index]; lia).
      unfold pending. cbn [last_msg_index robot_id set_last_msg_index].
      rewrite Rc, Rid, recv_entries_cursor, set_last_msg_index_twice.
      reflexivity.
    + rewrite IH by (cbn [last_msg_index set_last_msg_index]; lia).
      unfold pending. cbn [last_msg_index robot_id set_last_msg_index].
      rewrite recv_entries_cursor, set_last_msg_index_twice.
      reflexivity.
Qed.

Lemma drain_spec (r : SimpleRobot) (q : Queue) :
  (last_msg_index r <= length q)%nat ->
  drain r q
  = set_last_msg_index (length q) (fold_left recv_entry (pending r q) r).
Proof.
  intro L. unfold drain. apply drain_loop_spec. lia.
Qed.

(** A cursor beyond the queue: nothing is pending and nothing happens. *)
Lemma drain_beyond (r : SimpleRobot) (q : Queue) :
  (length q <= last_msg_index r)%nat -> drain r q = r /\ pending r q = [].
Proof.
  intro L. unfold drain, pending.
  replace (length q - last_msg_index r)%nat with 0%nat by lia.
  rewrite skipn_all2 by exact L. split; reflexivity.
Qed.

Lemma recv_entries_counts (l : list Message) :
  forall r : SimpleRobot,
    let r' := fold_left recv_entry l r in
    alpha r' = (alpha r + ones (map snd l))%Z
    /\ beta r' = (beta r + others (map snd l))%Z
    /\ recvs r' = (recvs r + Z.of_nat (length l))%Z
    /\ sends r' = sends r.
Proof.
  induction l as [|m l IH]; intros r; cbn zeta.
  - unfold ones, others; simpl. repeat split; lia.
  - simpl fold_left. destruct (IH (recv_entry r m)) as (A & B & R & S).
    rewrite A, B, R, S. clear A B R S IH.
    unfold ones, others, recv_entry, recvSample. simpl map. simpl filter.
    destruct (snd m =? 1)%Z; cbn -[Z.of_nat Z.add]; repeat split; lia.
Qed.

(** ** What a step does to the belief and to the queue *)

Section Effects.

Context {lib : NumLib}.

Lemma performMovement_belief_frame (r : SimpleRobot) (dt : Q) (d : Draws) :
  belief_frame r (performMovement r dt d).
Proof.
  unfold performMovement.
  destruct (movement_loop _ _ _ _ _ _ _) as [[res r1] k] eqn:E.
  apply movement_loop_spec in E as [[h ->] _].
  destruct res as [[nx ny]|]; [|unfold belief_frame; cbn; tauto].
  repeat match goal with |- context [if ?c then _ else _] => destruct c end;
    unfold belief_frame; cbn; tauto.
Qed.

Lemma sendSample_effect (r : SimpleRobot) (q : Queue) (m : Z) :
  let r' := fst (sendSample r q m) in
  alpha r' = (alpha r + (if (m =? 1)%Z then 1 else 0))%Z
  /\ beta r' = (beta r + (if (m =? 1)%Z then 0 else 1))%Z
  /\ sends r' = (sends r + 1)%Z /\ recvs r' = recvs r
  /\ last_msg_index r' = last_msg_index r /\ robot_id r' = robot_id r.
Proof.
  unfold sendSample. destruct (m =? 1)%Z; cbn -[Z.add]; repeat split; lia.
Qed.

Lemma check_decision_belief_frame (r : SimpleRobot) :
  belief_frame r (check_decision r).
Proof.
  destruct (check_decision_frame r) as [f ->]. unfold belief_frame; cbn; tauto.
Qed.

(** Past the drain, a step either leaves belief, counters, cursor and queue
    alone, or it is a broadcast: one bit folded, one send counted, one entry
    appended. *)
Lemma update_effect (r : SimpleRobot) (q : Queue) (dt : Q) (d : Draws) :
  let r0 := pre_dispatch r q dt in
  let r' := robot_of (update r q dt d) in
  (belief_frame r0 r' /\ queue_of (update r q dt d) = q)
  \/ (state r = SEND_SAMPLE
      /\ exists m : Z,
           queue_of (update r q dt d) = q ++ [(robot_id r, m)]
           /\ alpha r' = (alpha r0 + (if (m =? 1)%Z then 1 else 0))%Z
           /\ beta r' = (beta r0 + (if (m =? 1)%Z then 0 else 1))%Z
           /\ sends r' = (sends r0 + 1)%Z /\ recvs r' = recvs r0
           /\ last_msg_index r' = last_msg_index r0
           /\ robot_id r' = robot_id r0).
Proof.
  cbv zeta.
  destruct (pre_dispatch_frame r q dt) as (Hs & _ & Hid & _).
  unfold update; cbv zeta. fold (pre_dispatch r q dt).
  rewrite Hs. set (r0 := pre_dispatch r q dt) in *. clearbody r0.
  destruct (state r) eqn:S; unfold robot_of, queue_of.
  - left. cbn [fst snd]. split; [|reflexivity].
    pose proof (performMovement_belief_frame r0 dt d) as F.
    destruct (Qle_bool _ _); unfold belief_frame in *; cbn; tauto.
  - left. unfold belief_frame; cbn; tauto.
  - left. destruct (getObservation r0 d); unfold belief_frame; cbn; tauto.
  - destruct (calculateMessage r0 _ d) as [e|m].
    + left. unfold belief_frame; cbn; tauto.
    + right. split; [reflexivity|]. exists m.
      pose proof (sendSample_queue r0 q m) as Q.
      pose proof (sendSample_effect r0 q m) as E. cbv zeta in E.
      destruct (sendSample r0 q m) as [r1 q1]. cbn [fst snd] in *.
      pose proof (check_decision_belief_frame r1) as F.
      unfold belief_frame in F.
      cbn [fst snd alpha beta sends recvs last_msg_index robot_id
           set_timer set_state].
      rewrite Q, Hid.
      destruct E as (E1 & E2 & E3 & E4 & E5 & E6).
      destruct F as (F1 & F2 & F3 & F4 & F5 & F6).
      repeat split; congruence.
  - left. unfold belief_frame; cbn; tauto.
Qed.

End Effects.

(** Cursor, receipt counter and queue after a step that starts with the
    cursor within the queue. *)
Lemma update_cursor (lib : NumLib) (r : SimpleRobot) (q : Queue) (dt : Q)
    (d : Draws) :
  (last_msg_index r <= length q)%nat ->
  let r' := robot_of (update r q dt d) in
  let q' := queue_of (update r q dt d) in
  last_msg_index r' = length q
  /\ recvs r' = (recvs r + Z.of_nat (length (pending r q)))%Z
  /\ (q' = q \/ exists m, q' = q ++ [(robot_id r, m)])
  /\ (state r <> SEND_SAMPLE ->
      alpha r' = (alpha r + ones (map snd (pending r q)))%Z
      /\ beta r' = (beta r + others (map snd (pending r q)))%Z).
Proof.
  intros L r' q'. subst r' q'.
  pose proof (drain_spec r q L) as D.
  destruct (pre_dispatch_frame r q dt)
    as (_ & _ & _ & _ & _ & _ & Ha & Hb & _ & Hr & Hc).
  rewrite D in Ha, Hb, Hr, Hc.
  cbn [alpha beta recvs last_msg_index set_last_msg_index] in Ha, Hb, Hr, Hc.
  destruct (recv_entries_counts (pending r q) r) as (A & B & R & _).
  rewrite A in Ha. rewrite B in Hb. rewrite R in Hr.
  destruct (update_effect r q dt d)
    as [[F Q]|(S & m & Q & _ & _ & _ & E4 & E5 & _)].
  - unfold belief_frame in F. destruct F as (F1 & F2 & _ & F4 & F5 & _).
    repeat split; [congruence|congruence|left; exact Q
                  |congruence|congruence].
  - repeat split; [congruence|congruence|right; exists m; exact Q
                  |contradiction|contradiction].
Qed.



(** ** Counting folds *)

Lemma ones_cons (b : Z) (l : list Z) :
  ones (b :: l) = ((if (b =? 1)%Z then 1 else 0) + ones l)%Z.
Proof. unfold ones; simpl. destruct (b =? 1)%Z; simpl length; lia. Qed.

Lemma others_cons (b : Z) (l : list Z) :
  others (b :: l) = ((if (b =? 1)%Z then 0 else 1) + others l)%Z.
Proof. unfold others; simpl. destruct (b =? 1)%Z; simpl length; lia. Qed.

Lemma ones_nonneg (l : list Z) : (0 <= ones l)%Z.
Proof. unfold ones; lia. Qed.

Lemma others_nonneg (l : list Z) : (0 <= others l)%Z.
Proof. unfold others; lia. Qed.

Lemma ones_others_length (l : list Z) :
  (ones l + others l = Z.of_nat (length l))%Z.
Proof.
  induction l as [|b l IH]; [reflexivity|].
  rewrite ones_cons, others_cons. simpl length.
  destruct (b =? 1)%Z; lia.
Qed.

Section Folds.

Context {lib : NumLib}.

Lemma recvSample_effect (r : SimpleRobot) (m : Z) :
  let r' := recvSample r m in
  alpha r' = (alpha r + (if (m =? 1)%Z then 1 else 0))%Z
  /\ beta r' = (beta r + (if (m =? 1)%Z then 0 else 1))%Z
  /\ sends r' = sends r /\ recvs r' = (recvs r + 1)%Z.
Proof.
  unfold recvSample. destruct (m =? 1)%Z; cbn -[Z.add]; repeat split; lia.
Qed.

(** One fold: alpha goes up by one on a bit 1, beta by one on any other
    bit, and one of the two counters by one. *)
Lemma apply_fold_step (s : SimpleRobot * Queue) (f : Fold) :
  let r := fst s in
  let r' := fst (apply_fold s f) in
  alpha r' = (alpha r + (if (fold_bit f =? 1)%Z then 1 else 0))%Z
  /\ beta r' = (beta r + (if (fold_bit f =? 1)%Z then 0 else 1))%Z
  /\ (sends r' + recvs r' = sends r + recvs r + 1)%Z.
Proof.
  destruct f as [b|b]; cbn [apply_fold fold_bit fst].
  - destruct (sendSample_effect (fst s) (snd s) b) as (A & B & S & R & _).
    rewrite A, B, S, R. repeat split; lia.
  - destruct (recvSample_effect (fst s) b) as (A & B & S & R).
    rewrite A, B, S, R. repeat split; lia.
Qed.

Lemma apply_folds_counts (fs : list Fold) :
  forall s : SimpleRobot * Queue,
    let r := fst s in
    let r' := fst (apply_folds fs s) in
    alpha r' = (alpha r + ones (map fold_bit fs))%Z
    /\ beta r' = (beta r + others (map fold_bit fs))%Z
    /\ (sends r' + recvs r'
        = sends r + recvs r + Z.of_nat (length fs))%Z.
Proof.
  induction fs as [|f fs IH]; intros s; cbv zeta.
  - unfold ones, others; simpl. repeat split; lia.
  - unfold apply_folds in *. simpl fold_left. simpl map.
    rewrite ones_cons, others_cons.
    destruct (IH (apply_fold s f)) as (A & B & C).
    destruct (apply_fold_step s f) as (A1 & B1 & C1).
    rewrite A, B, C, A1, B1. simpl length. repeat split; lia.
Qed.

Lemma drain_keeps_belief_inv (r : SimpleRobot) (q : Queue) :
  belief_inv r -> belief_inv (drain r q).
Proof.
  intros (I & A & B).
  destruct (Nat.le_gt_cases (last_msg_index r) (length q)) as [L|L].
  - rewrite (drain_spec r q L).
    destruct (recv_entries_counts (pending r q) r) as (Ha & Hb & Hr & Hs).
    unfold belief_inv. cbn [alpha beta sends recvs set_last_msg_index].
    rewrite Ha, Hb, Hr, Hs.
    match goal with |- context [ones ?l] =>
      pose proof (ones_others_length l) as T;
      pose proof (ones_nonneg l); pose proof (others_nonneg l)
    end.
    rewrite length_map in T. unfold Message in *. repeat split; lia.
  - destruct (drain_beyond r q) as [-> _]; [lia|]. repeat split; assumption.
Qed.

(** The invariant of the Beta parameters survives every step. *)
Lemma update_keeps_belief_inv (r : SimpleRobot) (q : Queue) (dt : Q)
    (d : Draws) :
  belief_inv r -> belief_inv (robot_of (update r q dt d)).
Proof.
  intro I. apply (drain_keeps_belief_inv r q) in I.
  destruct (pre_dispatch_frame r q dt)
    as (_ & _ & _ & _ & _ & _ & Ha & Hb & Hs & Hr & _).
  pose proof (drain_is_frame r q) as F. frame_fields F.
  destruct I as (I & A & B).
  destruct (update_effect r q dt d)
    as [[(F1 & F2 & F3 & F4 & _) _]|(_ & m & _ & E1 & E2 & E3 & E4 & _)];
    unfold belief_inv.
  - rewrite F1, F2, F3, F4, Ha, Hb, Hs, Hr, <- Fsends. repeat split; lia.
  - rewrite E1, E2, E3, E4, Ha, Hb, Hs, Hr, <- Fsends.
    destruct (m =? 1)%Z; repeat split; lia.
Qed.

End Folds.

(** C6. From the prior (1, 1), after any sequence of folds (broadcasts and
    receipts, in any order): alpha is 1 plus the number of bits equal to 1,
    beta is 1 plus the number of other bits, so [(alpha - 1) + (beta - 1)]
    is the number of folds, which is [sends + recvs]; alpha and beta are at
    least 1; and a further fold adds one to alpha on a bit 1 and one to beta
    otherwise. *)
Theorem belief_counts_folds :
  forall (lib : NumLib) (fs : list Fold) (x0 y0 : Q)
         (env0 : option SimpleEnvironment) (id0 : option Z) (direction0 : Q)
         (q : Queue),
    let s := apply_folds fs (SimpleRobot_init x0 y0 env0 id0 direction0, q) in
    let r := fst s in
    let bits := map fold_bit fs in
    alpha r = (1 + ones bits)%Z
    /\ beta r = (1 + others bits)%Z
    /\ ((alpha r - 1) + (beta r - 1) = sends r + recvs r)%Z
    /\ (sends r + recvs r = Z.of_nat (length fs))%Z
    /\ (1 <= alpha r)%Z /\ (1 <= beta r)%Z
    /\ (forall f : Fold,
          let r' := fst (apply_fold s f) in
          alpha r' = (alpha r + (if (fold_bit f =? 1)%Z then 1 else 0))%Z
          /\ beta r' = (beta r + (if (fold_bit f =? 1)%Z then 0 else 1))%Z).
Proof.
  intros lib fs x0 y0 env0 id0 direction0 q s r bits.
  destruct (apply_folds_counts fs
              (SimpleRobot_init x0 y0 env0 id0 direction0, q)) as (A & B & C).
  fold s in A, B, C. fold r in A, B, C. fold bits in A, B.
  cbn [fst alpha beta sends recvs SimpleRobot_init] in A, B, C.
  pose proof (ones_others_length bits) as T.
  pose proof (ones_nonneg bits). pose proof (others_nonneg bits).
  unfold bits in T at 3. rewrite length_map in T.
  repeat split; try lia.
  - destruct (apply_fold_step s f) as (A1 & _). exact A1.
  - destruct (apply_fold_step s f) as (_ & B1 & _). exact B1.
Qed.

(** ** Binomial tails *)

Lemma binom_above (n : nat) : forall k : nat, (n < k)%nat -> binom n k = 0%Z.
Proof.
  induction n as [|n IH]; intros [|k] H; simpl; try lia.
  rewrite !IH by lia. reflexivity.
Qed.

Lemma binom_nonneg (n : nat) : forall k : nat, (0 <= binom n k)%Z.
Proof.
  induction n as [|n IH]; intros [|k]; simpl; try lia.
  pose proof (IH k); pose proof (IH (S k)); lia.
Qed.

Lemma sum_range_ext (f g : nat -> Z) (len : nat) :
  forall a : nat,
    (forall j, (a <= j < a + len)%nat -> f j = g j) ->
    sum_range f a len = sum_range g a len.
Proof.
  induction len as [|len IH]; intros a H; simpl; [reflexivity|].
  rewrite (H a) by lia. rewrite (IH (S a)); [reflexivity|].
  intros j Hj. apply H. lia.
Qed.

Lemma sum_range_plus (f g : nat -> Z) (len : nat) :
  forall a : nat,
    sum_range (fun j => (f j + g j)%Z) a len
    = (sum_range f a len + sum_range g a len)%Z.
Proof.
  induction len as [|len IH]; intros a; simpl; [reflexivity|].
  rewrite IH. lia.
Qed.

Lemma sum_range_pred (f : nat -> Z) (len : nat) :
  forall a : nat,
    sum_range (fun j => f (Nat.pred j)) (S a) len = sum_range f a len.
Proof.
  induction len as [|len IH]; intros a; simpl; [reflexivity|].
  rewrite IH. reflexivity.
Qed.

Lemma sum_range_app (f : nat -> Z) (l1 l2 : nat) :
  forall a : nat,
    sum_range f a (l1 + l2)
    = (sum_range f a l1 + sum_range f (a + l1) l2)%Z.
Proof.
  induction l1 as [|l1 IH]; intros a; simpl.
  - rewrite Nat.add_0_r. reflexivity.
  - rewrite IH. replace (S a + l1)%nat with (a + S l1)%nat by lia. lia.
Qed.

Lemma sum_range_null (f : nat -> Z) (len : nat) :
  forall a : nat,
    (forall j, (a <= j)%nat -> f j = 0%Z) -> sum_range f a len = 0%Z.
Proof.
  induction len as [|len IH]; intros a H; simpl; [reflexivity|].
  rewrite (H a) by lia. rewrite IH; [reflexivity|].
  intros j Hj. apply H. lia.
Qed.

Lemma sum_range_nonneg (f : nat -> Z) (len : nat) :
  forall a : nat, (forall j, 0 <= f j)%Z -> (0 <= sum_range f a len)%Z.
Proof.
  induction len as [|len IH]; intros a H; simpl; [lia|].
  pose proof (H a). pose proof (IH (S a) H). lia.
Qed.

(** Summing a row beyond its end adds nothing. *)
Lemma binom_tail_longer (n a len : nat) :
  (S n <= a + len)%nat -> sum_range (binom n) a len = binom_tail n a.
Proof.
  intro H. unfold binom_tail.
  destruct (Nat.le_gt_cases (S n) a) as [G|G].
  - replace (S n - a)%nat with 0%nat by lia. simpl.
    apply sum_range_null. intros j Hj. apply binom_above. lia.
  - replace len with ((S n - a) + (len - (S n - a)))%nat by lia.
    rewrite sum_range_app.
    rewrite (sum_range_null _ _ (a + (S n - a))%nat).
    + replace (S n - a + (len - (S n - a)) - (S n - a))%nat
        with (len - (S n - a))%nat by lia. lia.
    + intros j Hj. apply binom_above. lia.
Qed.

Lemma binom_tail_pascal (n a : nat) :
  binom_tail (S n) (S a) = (binom_tail n a + binom_tail n (S a))%Z.
Proof.
  unfold binom_tail at 1.
  replace (S (S n) - S a)%nat with (S n - a)%nat by lia.
  rewrite (sum_range_ext _
             (fun j => (binom n (Nat.pred j) + binom n j)%Z)).
  - rewrite sum_range_plus, sum_range_pred.
    rewrite (binom_tail_longer n (S a)) by lia. reflexivity.
  - intros [|j] Hj; [lia|]. reflexivity.
Qed.

Lemma binom_tail_head (n : nat) :
  binom_tail n 0 = (1 + binom_tail n 1)%Z.
Proof.
  unfold binom_tail.
  replace (S n - 1)%nat with n by lia.
  replace (S n - 0)%nat with (S n) by lia.
  cbn [sum_range].
  replace (binom n 0) with 1%Z by (destruct n; reflexivity).
  reflexivity.
Qed.

Lemma binom_tail_row (n : nat) : binom_tail n 0 = (2 ^ Z.of_nat n)%Z.
Proof.
  induction n as [|n IH]; [reflexivity|].
  rewrite binom_tail_head, binom_tail_pascal.
  pose proof (binom_tail_head n) as Hh.
  rewrite Nat2Z.inj_succ, Z.pow_succ_r by lia. lia.
Qed.

Lemma binom_tail_beyond (n a : nat) : (n < a)%nat -> binom_tail n a = 0%Z.
Proof.
  intro H. unfold binom_tail. replace (S n - a)%nat with 0%nat by lia.
  reflexivity.
Qed.

Lemma binom_tail_nonneg (n a : nat) : (0 <= binom_tail n a)%Z.
Proof. apply sum_range_nonneg, binom_nonneg. Qed.

(** The two tails that start at [a] and at [b], with [a + b = n + 1],
    share the row between them. *)
Lemma binom_tail_complement (n : nat) :
  forall a b : nat,
    (a + b = S n)%nat ->
    (binom_tail n a + binom_tail n b = 2 ^ Z.of_nat n)%Z.
Proof.
  induction n as [|n IH]; intros a b H.
  - assert (C : (a = 0 /\ b = 1)%nat \/ (a = 1 /\ b = 0)%nat) by lia.
    destruct C as [[-> ->]|[-> ->]]; reflexivity.
  - destruct a as [|a].
    + rewrite binom_tail_row, (binom_tail_beyond (S n) b) by lia. lia.
    + destruct b as [|b].
      * rewrite binom_tail_row, (binom_tail_beyond (S n) (S a)) by lia. lia.
      * rewrite !binom_tail_pascal.
        pose proof (IH a (S b) ltac:(lia)).
        pose proof (IH (S a) b ltac:(lia)).
        rewrite Nat2Z.inj_succ, Z.pow_succ_r by lia. lia.
Qed.

(** ** The belief value at one half *)

Lemma qpow_add (v : Q) (a b : nat) :
  qpow v (a + b) == qpow v a * qpow v b.
Proof.
  induction a as [|a IH]; simpl; [ring|]. rewrite IH. ring.
Qed.

Lemma qpow_compat (v w : Q) (k : nat) : v == w -> qpow v k == qpow w k.
Proof.
  intro E. induction k as [|k IH]; simpl; [reflexivity|].
  rewrite IH, E. reflexivity.
Qed.

Lemma qpow_half_pos (n : nat) : 0 < qpow (1 # 2) n.
Proof.
  induction n as [|n IH]; simpl; [reflexivity|].
  apply Qmult_lt_0_compat; [reflexivity|exact IH].
Qed.

Lemma qpow_half_two (n : nat) :
  inject_Z (2 ^ Z.of_nat n) * qpow (1 # 2) n == 1.
Proof.
  induction n as [|n IH]; [reflexivity|].
  rewrite Nat2Z.inj_succ, Z.pow_succ_r by lia.
  rewrite inject_Z_mult. simpl qpow.
  setoid_replace (inject_Z 2 * inject_Z (2 ^ Z.of_nat n)
                  * ((1 # 2) * qpow (1 # 2) n))
    with (inject_Z (2 ^ Z.of_nat n) * qpow (1 # 2) n) by ring.
  exact IH.
Qed.

Lemma sumQ_range_scaled (f : nat -> Q) (g : nat -> Z) (c : Q) (len : nat) :
  forall a : nat,
    (forall j, (a <= j < a + len)%nat -> f j == inject_Z (g j) * c) ->
    sumQ_range f a len == inject_Z (sum_range g a len) * c.
Proof.
  induction len as [|len IH]; intros a H; simpl; [ring|].
  rewrite (H a) by lia. rewrite IH by (intros j Hj; apply H; lia).
  rewrite inject_Z_plus. ring.
Qed.

(** At one half every term of the sum has the weight [(1/2)^n]: the belief
    value is a binomial tail over [2^n]. *)
Lemma beta_cdf_exact_half (a b : Z) :
  (1 <= a)%Z -> (1 <= b)%Z ->
  beta_cdf_exact (5 # 10) a b
  == inject_Z (binom_tail (Z.to_nat (a + b - 1)) (Z.to_nat a))
     * qpow (1 # 2) (Z.to_nat (a + b - 1)).
Proof.
  intros Ha Hb. unfold beta_cdf_exact, binom_tail. cbv zeta.
  apply sumQ_range_scaled. intros j Hj.
  set (n := Z.to_nat (a + b - 1)) in *.
  assert (Hn : (j <= n)%nat) by lia.
  rewrite (qpow_compat (5 # 10) (1 # 2)) by reflexivity.
  rewrite (qpow_compat (1 - (5 # 10)) (1 # 2)) by reflexivity.
  assert (Hq : qpow (1 # 2) n == qpow (1 # 2) j * qpow (1 # 2) (n - j)).
  { rewrite <- qpow_add. replace (j + (n - j))%nat with n by lia.
    reflexivity. }
  rewrite Hq. ring.
Qed.

Lemma beta_cdf_exact_swap (a b : Z) :
  (1 <= a)%Z -> (1 <= b)%Z ->
  beta_cdf_exact (5 # 10) a b + beta_cdf_exact (5 # 10) b a == 1.
Proof.
  intros Ha Hb.
  rewrite (beta_cdf_exact_half a b Ha Hb), (beta_cdf_exact_half b a Hb Ha).
  replace (b + a - 1)%Z with (a + b - 1)%Z by lia.
  set (n := Z.to_nat (a + b - 1)).
  rewrite <- Qmult_plus_distr_l, <- inject_Z_plus.
  rewrite (binom_tail_complement n (Z.to_nat a) (Z.to_nat b))
    by (unfold n; lia).
  apply qpow_half_two.
Qed.

Lemma beta_cdf_exact_nonneg (a b : Z) :
  (1 <= a)%Z -> (1 <= b)%Z -> 0 <= beta_cdf_exact (5 # 10) a b.
Proof.
  intros Ha Hb. rewrite (beta_cdf_exact_half a b Ha Hb).
  apply Qmult_le_0_compat.
  - change 0 with (inject_Z 0). rewrite <- Zle_Qle. apply binom_tail_nonneg.
  - apply Qlt_le_weak, qpow_half_pos.
Qed.

Lemma Qmax_complement_range (b : Q) :
  0 <= b -> b <= 1 -> 5 # 10 <= Qmax b (1 - b) /\ Qmax b (1 - b) <= 1.
Proof.
  intros L U.
  destruct (Q.max_spec b (1 - b)) as [[H ->]|[H ->]]; split; lra.
Qed.

Lemma Qmax_complement_swap (b c : Q) :
  b + c == 1 -> Qmax c (1 - c) == Qmax b (1 - b).
Proof.
  intro E.
  destruct (Q.max_spec b (1 - b)) as [[H ->]|[H ->]];
    destruct (Q.max_spec c (1 - c)) as [[G ->]|[G ->]]; lra.
Qed.

Lemma recv_all_flip (bits : list Z) :
  forall r : SimpleRobot,
    alpha (recv_all (map flip_bit bits) r)
    = (alpha r + others bits)%Z
    /\ beta (recv_all (map flip_bit bits) r) = (beta r + ones bits)%Z
    /\ alpha (recv_all bits r) = (alpha r + ones bits)%Z
    /\ beta (recv_all bits r) = (beta r + others bits)%Z.
Proof.
  induction bits as [|b bits IH]; intros r.
  - unfold ones, others; simpl. repeat split; lia.
  - unfold recv_all in *. simpl map. simpl fold_left.
    rewrite ones_cons, others_cons.
    destruct (IH (recvSample r (flip_bit b))) as (A & B & _).
    destruct (IH (recvSample r b)) as (_ & _ & C & D).
    rewrite A, B, C, D. clear IH A B C D.
    unfold recvSample, flip_bit.
    destruct (b =? 1)%Z; cbn -[Z.add]; repeat split; lia.
Qed.

(** C7. [get_belief_confidence] is [max(belief, 1 - belief)], where
    [belief] is the value of [beta_dist.cdf(0.5, alpha, beta)], whatever the
    numeric library; it lies between 0.5 and 1 whenever that value lies
    between 0 and 1, and is the same for the exchanged parameters whenever
    the two values add up to 1.  With the Beta distribution function itself, the
    regularized incomplete Beta function, which at 0.5 and integer
    parameters alpha, beta >= 1 is the binomial tail
    [sum_{j = alpha}^{n} C(n, j) / 2^n] with [n = alpha + beta - 1], the
    confidence lies between 0.5 and 1, and the robot with alpha and beta
    exchanged has the same confidence.  Feeding the prior the bits of
    opposite polarity exchanges alpha and beta, hence leaves the confidence
    as it is. *)
Theorem belief_confidence_range_and_symmetry :
  (forall r : SimpleRobot,
      (1 <= alpha r)%Z -> (1 <= beta r)%Z ->
      let c := get_belief_confidence (lib := RationalLib) r in
      5 # 10 <= c /\ c <= 1
      /\ get_belief_confidence (lib := RationalLib)
           (set_beta (alpha r) (set_alpha (beta r) r)) == c
      /\ (let belief :=
            beta_dist_cdf (NumLib := RationalLib) (5 # 10) (alpha r)
              (beta r) in
          let n := Z.to_nat (alpha r + beta r - 1) in
          c = Qmax belief (1 - belief)
          /\ belief
             == inject_Z (binom_tail n (Z.to_nat (alpha r)))
                * qpow (1 # 2) n
          /\ 0 <= belief /\ belief <= 1))
  /\ (forall (bits : list Z) (x0 y0 : Q) (env0 : option SimpleEnvironment)
             (id0 : option Z) (direction0 : Q),
         let prior := SimpleRobot_init x0 y0 env0 id0 direction0 in
         alpha (recv_all (map flip_bit bits) prior)
         = beta (recv_all bits prior)
         /\ beta (recv_all (map flip_bit bits) prior)
            = alpha (recv_all bits prior)
         /\ get_belief_confidence (lib := RationalLib)
              (recv_all (map flip_bit bits) prior)
            == get_belief_confidence (lib := RationalLib)
                 (recv_all bits prior))
  /\ (forall (lib : NumLib) (r : SimpleRobot),
         get_belief_confidence r
         = Qmax (beta_dist_cdf (5 # 10) (alpha r) (beta r))
                (1 - beta_dist_cdf (5 # 10) (alpha r) (beta r)))
  /\ (forall (lib : NumLib) (r : SimpleRobot),
         0 <= beta_dist_cdf (5 # 10) (alpha r) (beta r) ->
         beta_dist_cdf (5 # 10) (alpha r) (beta r) <= 1 ->
         5 # 10 <= get_belief_confidence r /\ get_belief_confidence r <= 1)
  /\ (forall (lib : NumLib) (r : SimpleRobot),
         beta_dist_cdf (5 # 10) (alpha r) (beta r)
         + beta_dist_cdf (5 # 10) (beta r) (alpha r) == 1 ->
         get_belief_confidence (set_beta (alpha r) (set_alpha (beta r) r))
         == get_belief_confidence r).
Proof.
  assert (Core : forall a b : Z, (1 <= a)%Z -> (1 <= b)%Z ->
            let v := beta_cdf_exact (5 # 10) a b in
            (5 # 10 <= Qmax v (1 - v) /\ Qmax v (1 - v) <= 1)
            /\ Qmax (beta_cdf_exact (5 # 10) b a)
                    (1 - beta_cdf_exact (5 # 10) b a)
               == Qmax v (1 - v)).
  { intros a b Ha Hb v.
    pose proof (beta_cdf_exact_swap a b Ha Hb) as E. fold v in E.
    pose proof (beta_cdf_exact_nonneg a b Ha Hb) as N. fold v in N.
    pose proof (beta_cdf_exact_nonneg b a Hb Ha) as N'.
    split.
    - apply Qmax_complement_range; lra.
    - apply Qmax_complement_swap. exact E. }
  split; [|split; [|split; [reflexivity|split]]].
  3:{ intros lib r L U. unfold get_belief_confidence.
      apply Qmax_complement_range; assumption. }
  3:{ intros lib r E. unfold get_belief_confidence.
      cbn [alpha beta set_alpha set_beta].
      apply Qmax_complement_swap. exact E. }
  - intros r Ha Hb c. subst c. unfold get_belief_confidence.
    cbn [alpha beta set_alpha set_beta beta_dist_cdf RationalLib].
    destruct (Core (alpha r) (beta r) Ha Hb) as [[L U] S].
    split; [exact L|]. split; [exact U|]. split; [exact S|].
    cbv zeta. split; [reflexivity|].
    split; [apply beta_cdf_exact_half; assumption|].
    pose proof (beta_cdf_exact_swap (alpha r) (beta r) Ha Hb).
    pose proof (beta_cdf_exact_nonneg (alpha r) (beta r) Ha Hb).
    pose proof (beta_cdf_exact_nonneg (beta r) (alpha r) Hb Ha).
    split; lra.
  - intros bits x0 y0 env0 id0 direction0 prior.
    destruct (recv_all_flip bits prior) as (A & B & C & D).
    assert (Ha : (1 <= alpha (recv_all bits prior))%Z)
      by (rewrite C; pose proof (ones_nonneg bits); unfold prior;
          cbn [alpha SimpleRobot_init]; lia).
    assert (Hb : (1 <= beta (recv_all bits prior))%Z)
      by (rewrite D; pose proof (others_nonneg bits); unfold prior;
          cbn [beta SimpleRobot_init]; lia).
    assert (Eab : alpha (recv_all (map flip_bit bits) prior)
                  = beta (recv_all bits prior))
      by (rewrite A, D; reflexivity).
    assert (Eba : beta (recv_all (map flip_bit bits) prior)
                  = alpha (recv_all bits prior))
      by (rewrite B, C; reflexivity).
    split; [exact Eab|]. split; [exact Eba|].
    unfold get_belief_confidence. rewrite Eab, Eba.
    cbn [beta_dist_cdf RationalLib].
    apply (Core _ _ Ha Hb).
Qed.

Lemma belief_confidence_range_and_symmetry_witness :
  let c := get_belief_confidence (lib := RationalLib) swayed_robot in
  5 # 10 <= c /\ c <= 1
  /\ get_belief_confidence (lib := RationalLib)
       (set_beta (alpha swayed_robot) (set_alpha (beta swayed_robot)
                                         swayed_robot)) == c
  /\ beta_dist_cdf (NumLib := RationalLib) (5 # 10) (alpha swayed_robot)
       (beta swayed_robot) == inject_Z 382 * qpow (1 # 2) 9
  /\ c == 382 # 512.
Proof.
  destruct (proj1 belief_confidence_range_and_symmetry swayed_robot)
    as (L & U & S & C & B & _).
  - vm_compute. discriminate.
  - vm_compute. discriminate.
  - split; [exact L|]. split; [exact U|]. split; [exact S|].
    split; [exact B|]. rewrite C. reflexivity.
Defined.

(** ** Construction *)

Lemma py_int_fraction_mono (n : Z) :
  (0 <= n)%Z ->
  (py_int ((6 # 10) * inject_Z n) <= py_int ((8 # 10) * inject_Z n))%Z.
Proof.
  intro H. unfold py_int. cbn [Qnum Qden Qmult inject_Z].
  apply Z.quot_le_mono; lia.
Qed.




(** ** The simulation loop *)

Section Simulation.

Context {lib : NumLib}.

Lemma sim_inv_grow (q tail : Queue) (r : SimpleRobot) :
  sim_inv q r -> sim_inv (q ++ tail) r.
Proof.
  intros (C & A & B). repeat split; try apply A; try apply B.
  rewrite length_app. lia.
Qed.

Lemma get_last_measurement_keeps (q : Queue) (r : SimpleRobot) :
  sim_inv q r -> sim_inv q (snd (get_last_measurement r)).
Proof.
  unfold get_last_measurement. destruct (last_measurement r); auto.
Qed.

Lemma update_keeps_sim_inv (r : SimpleRobot) (q : Queue) (dt : Q) (d : Draws) :
  sim_inv q r ->
  sim_inv (queue_of (update r q dt d)) (robot_of (update r q dt d))
  /\ exists tail, queue_of (update r q dt d) = q ++ tail.
Proof.
  intros (C & A & B).
  destruct (update_cursor lib r q dt d C) as (C1 & _ & C3 & _).
  assert (T : exists tail, queue_of (update r q dt d) = q ++ tail).
  { destruct C3 as [->|[m ->]]; [exists []; symmetry; apply app_nil_r|].
    eexists; reflexivity. }
  split; [|exact T]. split; [|split].
  - rewrite C1. destruct T as [tail ->]. rewrite length_app. lia.
  - apply (update_in_arena lib r q dt d A).
  - apply (update_keeps_belief_inv r q dt d B).
Qed.

(** One round of the driver keeps every robot inside the arena, with its
    cursor within the queue and its Beta parameters in step with its
    counters; the queue only grows. *)
Lemma update_sim_keeps (robots : list SimpleRobot) :
  forall (q : Queue) (draws : nat -> Draws) (i : nat),
    Forall (sim_inv q) robots ->
    Forall (sim_inv (snd (fst (update_sim robots q draws i))))
           (fst (fst (update_sim robots q draws i)))
    /\ exists tail, snd (fst (update_sim robots q draws i)) = q ++ tail.
Proof.
  induction robots as [|r rest IH]; intros q draws i H; cbn [update_sim].
  - split; [constructor|exists []; symmetry; apply app_nil_r].
  - inversion H as [|? ? Hr Hrest]; subst.
    destruct (update_keeps_sim_inv r q (1 # 10) (draws i) Hr)
      as [Hr' [tail T]].
    destruct (update r q (1 # 10) (draws i)) as [[r' q'] [e|]];
      unfold robot_of, queue_of in *; cbn [fst snd] in *; subst q'.
    + split; [|exists tail; reflexivity].
      constructor; [exact Hr'|].
      eapply Forall_impl; [|exact Hrest]. intros a. apply sim_inv_grow.
    + assert (Hrest' : Forall (sim_inv (q ++ tail)) rest)
        by (eapply Forall_impl; [|exact Hrest]; intros a; apply sim_inv_grow).
      destruct (IH (q ++ tail) draws (S i) Hrest') as [F [tail' T']].
      destruct (update_sim rest (q ++ tail) draws (S i)) as [[rest' q''] e].
      cbn [fst snd] in *. subst q''. split.
      * constructor; [|exact F].
        apply sim_inv_grow, get_last_measurement_keeps. exact Hr'.
      * exists (tail ++ tail'). symmetry. apply app_assoc.
Qed.

(** The invariants hold however long the simulation runs. *)
Lemma simulate_keeps (frames : nat) :
  forall (frame : nat) (robots : list SimpleRobot) (q : Queue)
         (draws : nat -> nat -> Draws),
    Forall (sim_inv q) robots ->
    Forall (sim_inv (snd (fst (simulate frames frame robots q draws))))
           (fst (fst (simulate frames frame robots q draws))).
Proof.
  induction frames as [|frames IH]; intros frame robots q draws H;
    cbn [simulate]; [exact H|].
  destruct (any_decided robots); [exact H|].
  destruct (update_sim_keeps robots q (draws frame) 0%nat H) as [F _].
  destruct (update_sim robots q (draws frame) 0) as [[robots' q'] [e|]];
    cbn [fst snd] in *; [exact F|].
  apply IH. exact F.
Qed.

(** The robots [main] creates start within the invariants. *)
Lemma SimpleRobot_init_sim_inv (x0 y0 : Q) (env0 : option SimpleEnvironment)
    (id0 : option Z) (direction0 : Q) :
  0 <= x0 -> x0 <= 1 -> 0 <= y0 -> y0 <= 1 ->
  sim_inv [] (SimpleRobot_init x0 y0 env0 id0 direction0).
Proof.
  intros. unfold sim_inv, in_arena, belief_inv; cbn. repeat split; auto; lia.
Qed.

End Simulation.

(** * Further properties of the controller *)

(** ** The shape of a step *)

Section Shapes.

Context {lib : NumLib}.

Lemma same_config_refl (r : SimpleRobot) : same_config r r.
Proof. unfold same_config; repeat split. Qed.

Lemma quiet_refl (r : SimpleRobot) : quiet r r.
Proof. unfold quiet, same_config; repeat split. Qed.

Lemma same_config_trans (a b c : SimpleRobot) :
  same_config a b -> same_config b c -> same_config a c.
Proof.
  unfold same_config; intros H1 H2.
  repeat match goal with H : _ /\ _ |- _ => destruct H end.
  repeat split; congruence.
Qed.

(** A drain rewrites the Beta parameters, the receipt counter and the
    cursor, and nothing else. *)
Lemma drain_loop_shape (fuel : nat) :
  forall (r : SimpleRobot) (q : Queue),
    exists a b c k,
      drain_loop fuel r q
      = set_alpha a (set_beta b (set_recvs c (set_last_msg_index k r))).
Proof.
  induction fuel as [|fuel IH]; intros r q; cbn [drain_loop].
  - exists (alpha r), (beta r), (recvs r), (last_msg_index r).
    destruct r; reflexivity.
  - destruct (last_msg_index r <? length q)%nat.
    2:{ exists (alpha r), (beta r), (recvs r), (last_msg_index r).
        destruct r; reflexivity. }
    destruct (nth_error q (last_msg_index r)) as [[sender msg]|].
    2:{ exists (alpha r), (beta r), (recvs r), (last_msg_index r).
        destruct r; reflexivity. }
    match goal with |- context [drain_loop fuel ?r2 q] =>
      destruct (IH r2 q) as (a & b & c & k & E) end.
    exists a, b, c, k. rewrite E.
    destruct (id_differs sender (robot_id r)); [|reflexivity].
    unfold recvSample. destruct (msg =? 1)%Z; reflexivity.
Qed.

Lemma pre_dispatch_shape (r : SimpleRobot) (q : Queue) (dt : Q) :
  exists a b c k f,
    pre_dispatch r q dt
    = set_timer (timer r + dt)
        (set_decision_flag f
           (set_alpha a (set_beta b (set_recvs c (set_last_msg_index k r))))).
Proof.
  unfold pre_dispatch, drain.
  destruct (drain_loop_shape (length q - last_msg_index r) r q)
    as (a & b & c & k & E).
  rewrite E.
  match goal with |- context [check_decision ?r1] =>
    destruct (check_decision_frame r1) as [f Hf] end.
  rewrite Hf. exists a, b, c, k, f. reflexivity.
Qed.

Lemma pre_dispatch_config (r : SimpleRobot) (q : Queue) (dt : Q) :
  same_config r (pre_dispatch r q dt)
  /\ x (pre_dispatch r q dt) = x r /\ y (pre_dispatch r q dt) = y r
  /\ last_measurement (pre_dispatch r q dt) = last_measurement r
  /\ observations (pre_dispatch r q dt) = observations r.
Proof.
  destruct (pre_dispatch_shape r q dt) as (a & b & c & k & f & ->).
  unfold same_config; cbn. repeat split.
Qed.

Lemma performMovement_quiet (r : SimpleRobot) (dt : Q) (d : Draws) :
  quiet r (performMovement r dt d)
  /\ (state (performMovement r dt d) = state r
      \/ state (performMovement r dt d) = GET_OBSERVATION).
Proof.
  unfold performMovement.
  destruct (movement_loop _ _ _ _ _ _ _) as [[res r1] k] eqn:E.
  apply movement_loop_spec in E as [[h ->] _].
  destruct res as [[nx ny]|].
  - repeat match goal with |- context [if ?c then _ else _] => destruct c end;
      unfold quiet, same_config; cbn; repeat split; auto.
  - unfold quiet, same_config; cbn; repeat split; auto.
Qed.

(** The step after the drain, case by case. *)
Lemma update_shape (r : SimpleRobot) (q : Queue) (dt : Q) (d : Draws) :
  let r0 := pre_dispatch r q dt in
  let res := update r q dt d in
  match state r with
  | RANDOM_WALK =>
      quiet r0 (robot_of res) /\ queue_of res = q /\ error_of res = None
      /\ (state (robot_of res) = RANDOM_WALK
          \/ state (robot_of res) = GET_OBSERVATION)
  | COLLISION_AVOIDANCE =>
      robot_of res
      = set_state RANDOM_WALK (turnRandomAngle (uniform_angle d 0) r0)
      /\ queue_of res = q /\ error_of res = None
  | GET_OBSERVATION =>
      (exists e, getObservation r0 d = inl e /\ res = (r0, q, Some e))
      \/ (exists o, getObservation r0 d = inr o
          /\ robot_of res
             = set_state SEND_SAMPLE
                 (set_observations (observations r0 ++ [o])
                    (set_last_observation (Some o) r0))
          /\ queue_of res = q /\ error_of res = None)
  | SEND_SAMPLE =>
      (exists e, calculateMessage r0 (raw_message r) d = inl e
                 /\ res = (r0, q, Some e))
      \/ (exists m, calculateMessage r0 (raw_message r) d = inr m
          /\ robot_of res
             = set_timer 0
                 (set_state RANDOM_WALK
                    (check_decision (fst (sendSample r0 q m))))
          /\ queue_of res = q ++ [(robot_id r, m)] /\ error_of res = None)
  | RESET =>
      robot_of res = set_timer 0 (set_state RANDOM_WALK r0)
      /\ queue_of res = q /\ error_of res = None
  end.
Proof.
  cbv zeta.
  destruct (pre_dispatch_frame r q dt) as (Hs & _ & Hid & Hlast & Hfs & _).
  unfold update; cbv zeta. fold (pre_dispatch r q dt).
  rewrite Hs, Hlast. fold (raw_message r).
  set (r0 := pre_dispatch r q dt) in *.
  assert (S0 : state r0 = state r) by exact Hs. clearbody r0.
  destruct (state r); unfold robot_of, queue_of, error_of.
  - destruct (performMovement_quiet r0 dt d) as [Q S].
    rewrite S0 in S.
    destruct (Qle_bool _ _); cbn [fst snd];
      (split; [|split; [reflexivity|split; [reflexivity|]]]).
    + unfold quiet, same_config in *; cbn; exact Q.
    + right; reflexivity.
    + exact Q.
    + exact S.
  - cbn. auto.
  - destruct (getObservation r0 d) as [e|o].
    + left. exists e. auto.
    + right. exists o. cbn. auto.
  - destruct (calculateMessage r0 (raw_message r) d) as [e|m] eqn:C.
    + left. exists e. auto.
    + right. exists m. split; [reflexivity|].
      pose proof (sendSample_queue r0 q m) as Q.
      destruct (sendSample r0 q m) as [r1 q1]. cbn [fst snd] in *.
      rewrite Q, Hid. auto.
  - cbn. auto.
Qed.

End Shapes.

Section StepFacts.

Context {lib : NumLib}.

Lemma quiet_trans (a b c : SimpleRobot) :
  quiet a b -> quiet b c -> quiet a c.
Proof.
  unfold quiet, same_config; intros H1 H2.
  repeat match goal with H : _ /\ _ |- _ => destruct H end.
  repeat split; congruence.
Qed.

Lemma id_differs_same (a : option Z) : id_differs a a = false.
Proof. destruct a as [v|]; simpl; [rewrite Z.eqb_refl|]; reflexivity. Qed.

Lemma quiet_set_timer (t : Q) (r : SimpleRobot) : quiet r (set_timer t r).
Proof. unfold quiet, same_config; cbn; repeat split. Qed.

Lemma quiet_avoid (a : Q) (r : SimpleRobot) :
  quiet r (set_state RANDOM_WALK (turnRandomAngle a r)).
Proof. unfold quiet, same_config; cbn; repeat split. Qed.

Lemma quiet_observe (o : bool) (l : list bool) (r : SimpleRobot) :
  quiet r (set_state SEND_SAMPLE
             (set_observations l (set_last_observation (Some o) r))).
Proof. unfold quiet, same_config; cbn; repeat split. Qed.

Lemma quiet_restart (r : SimpleRobot) :
  quiet r (set_timer 0 (set_state RANDOM_WALK r)).
Proof. unfold quiet, same_config; cbn; repeat split. Qed.

(** Every step ends on a robot that differs from a freshly checked one
    only in position, heading, state, timers and observations.  The checked
    robot is the drained one, or, in a broadcast, the one that has just
    sent. *)
Lemma update_after_check (r : SimpleRobot) (q : Queue) (dt : Q) (d : Draws) :
  let r0 := pre_dispatch r q dt in
  let res := update r q dt d in
  exists r1,
    quiet (check_decision r1) (robot_of res)
    /\ ((r1 = drain r q /\ queue_of res = q)
        \/ (exists m, state r = SEND_SAMPLE
            /\ calculateMessage r0 (raw_message r) d = inr m
            /\ r1 = fst (sendSample r0 q m)
            /\ queue_of res = q ++ [(robot_id r, m)]
            /\ error_of res = None)).
Proof.
  cbv zeta.
  assert (Q0 : quiet (check_decision (drain r q)) (pre_dispatch r q dt))
    by (unfold pre_dispatch; apply quiet_set_timer).
  pose proof (update_shape r q dt d) as H. cbv zeta in H.
  revert Q0 H. generalize (pre_dispatch r q dt) as r0.
  generalize (update r q dt d) as res. intros res r0 Q0 H.
  destruct (state r) eqn:S.
  - destruct H as (Q & E & _). exists (drain r q). split; [|left; auto].
    eapply quiet_trans; [exact Q0|exact Q].
  - destruct H as (E1 & E & _). exists (drain r q). split; [|left; auto].
    rewrite E1. eapply quiet_trans; [exact Q0|apply quiet_avoid].
  - destruct H as [(e & _ & E1)|(o & _ & E1 & E & _)];
      exists (drain r q); (split; [|left; subst; auto]).
    + subst res. exact Q0.
    + rewrite E1. eapply quiet_trans; [exact Q0|apply quiet_observe].
  - destruct H as [(e & _ & E1)|(m & C & E1 & E & Er)].
    + exists (drain r q). subst res. split; [exact Q0|left; auto].
    + exists (fst (sendSample r0 q m)). split.
      * rewrite E1. apply quiet_restart.
      * right. exists m. auto.
  - destruct H as (E1 & E & _). exists (drain r q). split; [|left; auto].
    rewrite E1. eapply quiet_trans; [exact Q0|apply quiet_restart].
Qed.

Lemma sendSample_config (r : SimpleRobot) (q : Queue) (m : Z) :
  same_config r (fst (sendSample r q m))
  /\ decision_flag (fst (sendSample r q m)) = decision_flag r.
Proof.
  unfold sendSample, same_config. destruct (m =? 1)%Z; cbn; repeat split.
Qed.

Lemma check_decision_config (r : SimpleRobot) :
  same_config r (check_decision r).
Proof.
  destruct (check_decision_frame r) as [f ->].
  unfold same_config; cbn; repeat split.
Qed.

Lemma drain_config (r : SimpleRobot) (q : Queue) :
  same_config r (drain r q) /\ decision_flag (drain r q) = decision_flag r
  /\ sends (drain r q) = sends r.
Proof.
  unfold drain.
  destruct (drain_loop_shape (length q - last_msg_index r) r q)
    as (a & b & c & k & ->).
  unfold same_config; cbn; repeat split.
Qed.

(** The effect of a drain on the belief, whatever the cursor. *)
Lemma drain_effect (r : SimpleRobot) (q : Queue) :
  alpha (drain r q) = (alpha r + ones (map snd (pending r q)))%Z
  /\ beta (drain r q) = (beta r + others (map snd (pending r q)))%Z
  /\ recvs (drain r q) = (recvs r + Z.of_nat (length (pending r q)))%Z
  /\ last_msg_index (drain r q) = Nat.max (last_msg_index r) (length q).
Proof.
  destruct (Nat.le_gt_cases (last_msg_index r) (length q)) as [L|L].
  - rewrite (drain_spec r q L).
    destruct (recv_entries_counts (pending r q) r) as (A & B & R & _).
    cbn [alpha beta recvs last_msg_index set_last_msg_index].
    rewrite A, B, R. repeat split. lia.
  - destruct (drain_beyond r q) as [-> ->]; [lia|].
    unfold ones, others; simpl. repeat split; lia.
Qed.

Lemma calculateMessage_bit (r : SimpleRobot) (raw m : Z) (d : Draws) :
  raw = 0%Z \/ raw = 1%Z ->
  calculateMessage r raw d = inr m -> m = 0%Z \/ m = 1%Z.
Proof.
  intros B. unfold calculateMessage.
  destruct (feedback_strategy r).
  - intro E; inversion E; subst; exact B.
  - destruct (decision_flag r =? -1)%Z.
    + intro E; inversion E; subst; exact B.
    + destruct (decision_flag r =? 0)%Z; intro E; inversion E; auto.
  - destruct (_ || _)%bool; [discriminate|].
    destruct (float_pow _ _); [discriminate|].
    destruct (Qlt_bool _ _); intro E; inversion E; auto.
Qed.

Lemma raw_message_bit (r : SimpleRobot) :
  raw_message r = 0%Z \/ raw_message r = 1%Z.
Proof.
  unfold raw_message. destruct (last_observation r) as [[|]|]; auto.
Qed.

Lemma check_decision_below (r : SimpleRobot) :
  (sends r + recvs r < min_swarm_count r)%Z -> check_decision r = r.
Proof.
  intro H. unfold check_decision.
  apply Z.leb_gt in H. rewrite H. reflexivity.
Qed.

(** A robot that has the decision inputs of a checked robot is checked. *)
Lemma check_decision_settled (r1 r' : SimpleRobot) :
  quiet (check_decision r1) r' -> check_decision r' = r'.
Proof.
  intros (C & A & B & S & R & F & _).
  destruct C as (_ & _ & _ & _ & _ & _ & P & M & _).
  destruct (check_decision_belief_frame r1) as (A1 & B1 & S1 & R1 & _).
  destruct (check_decision_config r1) as (_ & _ & _ & _ & _ & _ & P1 & M1 & _).
  rewrite A1 in A. rewrite B1 in B. rewrite S1 in S. rewrite R1 in R.
  rewrite P1 in P. rewrite M1 in M.
  assert (K : forall v, decision_flag r' = v -> set_decision_flag v r' = r')
    by (intros v <-; destruct r'; reflexivity).
  unfold check_decision in F |- *. rewrite A, B, S, R, P, M.
  destruct (min_swarm_count r1 <=? sends r1 + recvs r1)%Z; [|reflexivity].
  destruct (Qlt_bool (p_c r1) _); [apply K; exact F|].
  destruct (Qlt_bool _ (1 - p_c r1)); apply K; exact F.
Qed.

End StepFacts.

(** ** Decisions, step by step *)

(** X1. Running the decision rule twice is the same as running it once. *)
Theorem check_decision_idempotent :
  forall (lib : NumLib) (r : SimpleRobot),
    check_decision (check_decision r) = check_decision r.
Proof.
  intros lib r. apply (check_decision_settled r).
  unfold quiet, same_config. repeat split.
Qed.

(** X2. After any step the decision flag is up to date: running the
    decision rule on the robot the step leaves changes nothing. *)
Theorem update_leaves_decision_current :
  forall (lib : NumLib) (r : SimpleRobot) (q : Queue) (dt : Q) (d : Draws),
    check_decision (robot_of (update r q dt d)) = robot_of (update r q dt d).
Proof.
  intros lib r q dt d.
  destruct (update_after_check r q dt d) as (r1 & Q & _).
  exact (check_decision_settled r1 _ Q).
Qed.

Lemma check_decision_flag_ok (lib : NumLib) (r : SimpleRobot) :
  flag_ok r -> flag_ok (check_decision r).
Proof.
  intro F. unfold flag_ok in *.
  destruct (check_decision_cases r) as [ -> | [ -> | [ -> | -> ]]]; cbn; auto.
Qed.

(** X3. The decision flag stays within its three values -1, 0 and 1. *)
Theorem update_keeps_flag_ok :
  forall (lib : NumLib) (r : SimpleRobot) (q : Queue) (dt : Q) (d : Draws),
    flag_ok r -> flag_ok (robot_of (update r q dt d)).
Proof.
  intros lib r q dt d F.
  destruct (drain_config r q) as (_ & Fd & _).
  assert (F0 : flag_ok (check_decision (drain r q))).
  { apply check_decision_flag_ok. unfold flag_ok in *. rewrite Fd. exact F. }
  destruct (update_after_check r q dt d) as (r1 & Q & H).
  destruct Q as (_ & _ & _ & _ & _ & Fq & _).
  unfold flag_ok at 1. rewrite Fq.
  destruct H as [[-> _]|(m & _ & _ & -> & _)]; [exact F0|].
  apply check_decision_flag_ok. unfold flag_ok.
  destruct (sendSample_config (pre_dispatch r q dt) q m) as [_ ->].
  destruct (pre_dispatch_frame r q dt) as (_ & _ & _ & _ & _ & -> & _).
  exact F0.
Qed.

Lemma update_keeps_flag_ok_witness :
  flag_ok (robot_of (update centre_robot three_entries (1 # 10) unit_draws)).
Proof.
  apply (update_keeps_flag_ok RationalLib centre_robot three_entries (1 # 10)
           unit_draws).
  left. reflexivity.
Defined.

(** X4. No decision before the minimum sample count: when the sends and
    receipts the robot has after a step are fewer than [min_swarm_count],
    the step has left the decision flag as it was. *)
Theorem no_decision_below_minimum :
  forall (lib : NumLib) (r : SimpleRobot) (q : Queue) (dt : Q) (d : Draws),
    (sends (robot_of (update r q dt d)) + recvs (robot_of (update r q dt d))
     < min_swarm_count r)%Z ->
    decision_flag (robot_of (update r q dt d)) = decision_flag r.
Proof.
  intros lib r q dt d H.
  destruct (drain_config r q) as (Cd & Fd & Sd).
  destruct (drain_effect r q) as (_ & _ & Rd & _).
  destruct Cd as (_ & _ & _ & _ & _ & _ & _ & Md & _).
  destruct (pre_dispatch_frame r q dt)
    as (_ & _ & _ & _ & _ & F0 & _ & _ & S0 & R0 & _).
  destruct (pre_dispatch_config r q dt) as (C0 & _).
  destruct C0 as (_ & _ & _ & _ & _ & _ & _ & M0 & _).
  destruct (update_after_check r q dt d) as (r1 & Q & K).
  destruct Q as (_ & _ & _ & Sq & Rq & Fq & _).
  destruct (check_decision_belief_frame r1) as (_ & _ & S1 & R1 & _).
  rewrite Fq. rewrite Sq, Rq, S1, R1 in H.
  destruct K as [[-> _]|(m & _ & _ & -> & _)].
  - rewrite check_decision_below by lia. exact Fd.
  - destruct (sendSample_effect (pre_dispatch r q dt) q m)
      as (_ & _ & Ss & Rs & _).
    destruct (sendSample_config (pre_dispatch r q dt) q m) as [Cs Fs].
    destruct Cs as (_ & _ & _ & _ & _ & _ & _ & Ms & _).
    rewrite Ss, Rs in H.
    rewrite check_decision_below by lia.
    rewrite Fs, F0.
    rewrite check_decision_below; [exact Fd|].
    rewrite Md, Sd. lia.
Qed.

Lemma no_decision_below_minimum_witness :
  decision_flag
    (robot_of (update centre_robot three_entries (1 # 10) unit_draws))
  = (-1)%Z.
Proof.
  apply (no_decision_below_minimum RationalLib centre_robot three_entries
           (1 # 10) unit_draws).
  vm_compute. reflexivity.
Defined.

(** ** The state machine *)


Lemma update_same_config (lib : NumLib) (r : SimpleRobot) (q : Queue)
    (dt : Q) (d : Draws) :
  same_config r (robot_of (update r q dt d)).
Proof.
  destruct (update_after_check r q dt d) as (r1 & [Q _] & K).
  eapply same_config_trans; [|exact Q].
  eapply same_config_trans; [|apply check_decision_config].
  destruct K as [[-> _]|(m & _ & _ & -> & _)].
  - apply drain_config.
  - eapply same_config_trans; [apply pre_dispatch_config|].
    apply sendSample_config.
Qed.

(** X6. A step never writes the configuration: environment, speed, step
    scale, observation interval, heading-change duration, thresholds,
    minimum sample count, feedback strategy with its parameters, and the
    robot id are after the step what they were before. *)
Theorem update_keeps_configuration :
  forall (lib : NumLib) (r : SimpleRobot) (q : Queue) (dt : Q) (d : Draws),
    same_config r (robot_of (update r q dt d)).
Proof.
  intros lib r q dt d. apply update_same_config.
Qed.

(** ** Counters and the queue *)

Lemma update_counts (lib : NumLib) (r : SimpleRobot) (q : Queue) (dt : Q)
    (d : Draws) :
  let res := update r q dt d in
  let r' := robot_of res in
  let bits := map snd (pending r q) in
  recvs r' = (recvs r + Z.of_nat (length (pending r q)))%Z
  /\ last_msg_index r' = Nat.max (last_msg_index r) (length q)
  /\ robot_id r' = robot_id r
  /\ ((alpha r' = (alpha r + ones bits)%Z
       /\ beta r' = (beta r + others bits)%Z
       /\ sends r' = sends r /\ queue_of res = q)
      \/ (exists m,
             (m = 0%Z \/ m = 1%Z) /\ state r = SEND_SAMPLE
             /\ error_of res = None
             /\ alpha r'
                = (alpha r + ones bits + (if (m =? 1)%Z then 1 else 0))%Z
             /\ beta r'
                = (beta r + others bits + (if (m =? 1)%Z then 0 else 1))%Z
             /\ sends r' = (sends r + 1)%Z
             /\ queue_of res = q ++ [(robot_id r, m)])).
Proof.
  cbv zeta.
  destruct (drain_effect r q) as (Ad & Bd & Rd & Cd).
  destruct (drain_config r q) as (Kd & _ & Sd).
  destruct Kd as (_ & _ & _ & _ & _ & _ & _ & _ & _ & _ & _ & Id).
  destruct (pre_dispatch_frame r q dt)
    as (_ & _ & I0 & _ & _ & _ & A0 & B0 & S0 & R0 & C0).
  destruct (update_after_check r q dt d) as (r1 & Q & K).
  destruct Q as (Kq & Aq & Bq & Sq & Rq & _ & Cq & _).
  destruct Kq as (_ & _ & _ & _ & _ & _ & _ & _ & _ & _ & _ & Iq).
  destruct (check_decision_belief_frame r1) as (A1 & B1 & S1 & R1 & C1 & I1).
  rewrite Aq, Bq, Sq, Rq, Cq, Iq, A1, B1, S1, R1, C1, I1.
  destruct K as [[-> E]|(m & St & Cm & -> & E & Er)].
  - rewrite Rd, Cd, Id, Ad, Bd, Sd. repeat split. left. auto.
  - destruct (sendSample_effect (pre_dispatch r q dt) q m)
      as (As & Bs & Ss & Rs & Cs & Is).
    rewrite As, Bs, Ss, Rs, Cs, Is, A0, B0, S0, R0, C0, I0, Ad, Bd, Rd, Cd.
    repeat split. right. exists m. repeat split; auto.
    eapply calculateMessage_bit; [apply raw_message_bit|exact Cm].
Qed.

(** X7. A step never lowers a counter and never shortens the queue: the Beta
    parameters, the two counters and the cursor only grow, and the queue the
    step leaves is the old one with at most one entry appended. *)
Theorem update_is_monotone :
  forall (lib : NumLib) (r : SimpleRobot) (q : Queue) (dt : Q) (d : Draws),
    let r' := robot_of (update r q dt d) in
    (alpha r <= alpha r')%Z /\ (beta r <= beta r')%Z
    /\ (sends r <= sends r')%Z /\ (recvs r <= recvs r')%Z
    /\ (last_msg_index r <= last_msg_index r')%nat
    /\ exists tail, queue_of (update r q dt d) = q ++ tail
                    /\ (length tail <= 1)%nat.
Proof.
  intros lib r q dt d r'. subst r'.
  destruct (update_counts lib r q dt d) as (R & C & _ & K).
  pose proof (ones_nonneg (map snd (pending r q))).
  pose proof (others_nonneg (map snd (pending r q))).
  rewrite R, C.
  destruct K as [(-> & -> & -> & ->)|(m & _ & _ & _ & -> & -> & -> & ->)].
  - repeat split; try lia. exists []. rewrite app_nil_r. simpl. auto.
  - destruct (m =? 1)%Z; repeat split; try lia;
      eexists; split; try reflexivity; simpl; lia.
Qed.

(** X8. Broadcast accounting.  A step appends to the queue exactly when it
    is an error-free broadcast; the appended entry carries the robot's own
    id and a bit 0 or 1, and the send counter goes up by one.  In every
    other step queue and send counter are untouched. *)
Theorem update_broadcast_accounting :
  forall (lib : NumLib) (r : SimpleRobot) (q : Queue) (dt : Q) (d : Draws),
    let res := update r q dt d in
    (queue_of res = q /\ sends (robot_of res) = sends r
     /\ (state r <> SEND_SAMPLE \/ error_of res <> None))
    \/ (exists m,
          (m = 0%Z \/ m = 1%Z) /\ state r = SEND_SAMPLE
          /\ error_of res = None
          /\ queue_of res = q ++ [(robot_id r, m)]
          /\ sends (robot_of res) = (sends r + 1)%Z).
Proof.
  intros lib r q dt d res. subst res.
  destruct (update_counts lib r q dt d)
    as (_ & _ & _ & [(_ & _ & S & E)|(m & B & St & Er & _ & _ & S & E)]).
  - left. repeat split; auto.
    pose proof (update_shape r q dt d) as H. cbv zeta in H.
    destruct (state r); try (left; discriminate).
    right. destruct H as [(e & _ & ->)|(m & _ & _ & E' & _)]; [discriminate|].
    exfalso. rewrite E in E'.
    apply (f_equal (@length Message)) in E'.
    rewrite length_app in E'. simpl in E'. lia.
  - right. exists m. auto.
Qed.

(** X9. Under the [NONE] policy an error-free broadcast always happens and
    transmits the raw observation bit, whatever the decision flag. *)
Theorem none_feedback_broadcast :
  forall (lib : NumLib) (r : SimpleRobot) (q : Queue) (dt : Q) (d : Draws),
    feedback_strategy r = NONE ->
    state r = SEND_SAMPLE ->
    queue_of (update r q dt d) = q ++ [(robot_id r, raw_message r)]
    /\ error_of (update r q dt d) = None.
Proof.
  intros lib r q dt d N S.
  destruct (pre_dispatch_frame r q dt) as (_ & _ & _ & _ & F0 & _).
  pose proof (update_shape r q dt d) as H. cbv zeta in H. rewrite S in H.
  assert (C : calculateMessage (pre_dispatch r q dt) (raw_message r) d
              = inr (raw_message r))
    by (unfold calculateMessage; rewrite F0, N; reflexivity).
  rewrite C in H.
  destruct H as [(e & H & _)|(m & Cm & _ & E & Er)]; [discriminate|].
  inversion Cm; subst m. auto.
Qed.

Lemma none_feedback_broadcast_witness :
  queue_of (update (set_feedback_strategy NONE sender_robot) three_entries
              (1 # 10) unit_draws)
  = three_entries ++ [(Some 0%Z, 0%Z)]
  /\ error_of (update (set_feedback_strategy NONE sender_robot) three_entries
                 (1 # 10) unit_draws) = None.
Proof.
  apply (none_feedback_broadcast RationalLib
           (set_feedback_strategy NONE sender_robot) three_entries (1 # 10)
           unit_draws); reflexivity.
Defined.

(** X10. A robot is never handed its own broadcast: after any step, nothing
    of the queue the step leaves is pending for the robot, although that
    queue may end with the entry the robot has just appended. *)
Theorem own_broadcast_not_pending :
  forall (lib : NumLib) (r : SimpleRobot) (q : Queue) (dt : Q) (d : Draws),
    pending (robot_of (update r q dt d)) (queue_of (update r q dt d)) = [].
Proof.
  intros lib r q dt d.
  destruct (update_counts lib r q dt d) as (_ & C & I & K).
  unfold pending. rewrite C, I.
  destruct K as [(_ & _ & _ & ->)|(m & _ & _ & _ & _ & _ & _ & ->)].
  - rewrite skipn_all2 by lia. reflexivity.
  - destruct (Nat.le_gt_cases (last_msg_index r) (length q)) as [L|L].
    + rewrite Nat.max_r by exact L.
      rewrite skipn_app, skipn_all, Nat.sub_diag. simpl.
      rewrite id_differs_same. reflexivity.
    + rewrite skipn_all2; [reflexivity|].
      rewrite length_app. simpl. lia.
Qed.

(** ** Measurements *)

Section Measurements.

Context {lib : NumLib}.

Lemma sendSample_measurement (r : SimpleRobot) (q : Queue) (m : Z) :
  let r1 := fst (sendSample r q m) in
  last_measurement r1
  = Some (mkMeasurement (robot_id r) (x r) (y r) m
            (get_belief_confidence r1) (get_belief_confidence r1)).
Proof.
  unfold sendSample, get_belief_confidence.
  destruct (m =? 1)%Z; reflexivity.
Qed.

Lemma get_belief_confidence_same (a b : SimpleRobot) :
  alpha b = alpha a -> beta b = beta a ->
  get_belief_confidence b = get_belief_confidence a.
Proof.
  intros A B. unfold get_belief_confidence. rewrite A, B. reflexivity.
Qed.

End Measurements.

(** X11. The measurement of a broadcast.  An error-free broadcast step
    leaves a measurement that [get_last_measurement] returns once: it holds
    the robot's id and position, the bit just appended to the queue and, in
    both belief fields, the confidence of the robot after the step; a second
    call returns nothing.  A step that does not broadcast leaves the stored
    measurement as it was. *)
Theorem broadcast_measurement :
  forall (lib : NumLib) (r : SimpleRobot) (q : Queue) (dt : Q) (d : Draws),
    let res := update r q dt d in
    let r' := robot_of res in
    (queue_of res = q -> last_measurement r' = last_measurement r)
    /\ (forall m, queue_of res = q ++ [(robot_id r, m)] ->
        fst (get_last_measurement r')
        = Some (mkMeasurement (robot_id r) (x r) (y r) m
                  (get_belief_confidence r') (get_belief_confidence r'))
        /\ fst (get_last_measurement (snd (get_last_measurement r'))) = None).
Proof.
  intros lib r q dt d res r'. subst res r'.
  destruct (pre_dispatch_config r q dt) as (C0 & X0 & Y0 & M0 & _).
  destruct C0 as (_ & _ & _ & _ & _ & _ & _ & _ & _ & _ & _ & I0).
  destruct (update_after_check r q dt d) as (r1 & Q & K).
  destruct Q as (_ & Aq & Bq & _ & _ & _ & _ & Mq).
  destruct (check_decision_frame r1) as [f Hf].
  assert (M1 : last_measurement (check_decision r1) = last_measurement r1)
    by (rewrite Hf; reflexivity).
  destruct (check_decision_belief_frame r1) as (A1 & B1 & _).
  assert (Md : last_measurement (drain r q) = last_measurement r).
  { unfold drain.
    destruct (drain_loop_shape (length q - last_msg_index r) r q)
      as (a & b & c & k & ->). reflexivity. }
  assert (Grow : forall (e : Message), q ++ [e] <> q).
  { intros e E. apply (f_equal (@length Message)) in E.
    rewrite length_app in E. simpl in E. lia. }
  split.
  - intro E. destruct K as [[-> _]|(m & _ & _ & _ & E' & _)].
    + rewrite Mq, M1. exact Md.
    + rewrite E in E'. symmetry in E'. destruct (Grow _ E').
  - intros m E. destruct K as [[_ E']|(m' & _ & _ & -> & E' & _)].
    + rewrite E' in E. symmetry in E. destruct (Grow _ E).
    + rewrite E in E'. apply app_inj_tail in E' as [_ E'].
      inversion E'; subst m'.
      pose proof (sendSample_measurement (pre_dispatch r q dt) q m) as S.
      cbv zeta in S. rewrite <- M1, <- Mq in S.
      rewrite I0, X0, Y0 in S.
      rewrite <- (get_belief_confidence_same _ (robot_of (update r q dt d)))
        in S by congruence.
      unfold get_last_measurement at 2. unfold get_last_measurement at 2.
      rewrite S. cbn [snd fst].
      split; [unfold get_last_measurement; rewrite S; reflexivity|].
      reflexivity.
Qed.

(** ** Steps that cannot raise *)

Lemma py_index_in_range {A : Type} (l : list A) (i : Z) :
  (0 <= i < Z.of_nat (length l))%Z ->
  py_index l i = nth_error l (Z.to_nat i)
  /\ exists a, nth_error l (Z.to_nat i) = Some a.
Proof.
  intro H. unfold py_index.
  replace ((0 <=? i)%Z && (i <? Z.of_nat (length l))%Z) with true
    by (symmetry; apply andb_true_iff; split;
        [apply Z.leb_le|apply Z.ltb_lt]; lia).
  split; [reflexivity|].
  destruct (nth_error l (Z.to_nat i)) as [a|] eqn:E; [eauto|].
  apply nth_error_None in E. lia.
Qed.

Lemma grid_get_in_range (n : nat) (g : list (list bool)) (i j : Z) :
  square_grid n g ->
  (0 <= i < Z.of_nat n)%Z -> (0 <= j < Z.of_nat n)%Z ->
  exists b, grid_get g i j = Some b.
Proof.
  intros [L F] Hi Hj. unfold grid_get.
  destruct (py_index_in_range g i) as [-> [row R]]; [lia|].
  rewrite R.
  assert (length row = n).
  { rewrite Forall_forall in F. apply F. eapply nth_error_In; exact R. }
  destruct (py_index_in_range row j) as [-> [b B]]; [lia|]. eauto.
Qed.

Lemma py_int_of_nonneg (v : Q) : 0 <= v -> (0 <= py_int v)%Z.
Proof.
  intro V. unfold py_int. apply Z.quot_pos; [|lia].
  unfold Qle in V. cbn in V. lia.
Qed.

Lemma RationalLib_pow_ok : pow_ok (lib := RationalLib).
Proof.
  intros b e _ _ E. cbn [float_pow RationalLib]. unfold pow_int.
  replace (Qlt_bool e 0) with false
    by (symmetry; apply Qlt_bool_false; exact E).
  rewrite andb_false_r. eauto.
Qed.

Lemma RationalLib_mul_ok (g : Z) :
  (0 <= g)%Z -> mul_ok (lib := RationalLib) g.
Proof.
  intros G a A _. cbn [float_mul RationalLib]. eexists. split; [reflexivity|].
  apply Qmult_le_0_compat; [exact A|].
  change 0 with (inject_Z 0). rewrite <- Zle_Qle. exact G.
Qed.

Section NoRaise.

Context {lib : NumLib}.

Lemma getObservation_ok (r : SimpleRobot) (d : Draws) :
  env_ok r -> in_arena r -> exists o, getObservation r d = inr o.
Proof.
  unfold env_ok, getObservation. intros E (X0 & X1 & Y0 & Y1).
  destruct (env r) as [e|]; [|eauto].
  destruct E as (n & N & G & S & M).
  destruct (M (x r) X0 X1) as (vx & -> & Vx).
  destruct (M (y r) Y0 Y1) as (vy & -> & Vy).
  pose proof (py_int_of_nonneg vx Vx). pose proof (py_int_of_nonneg vy Vy).
  destruct (grid_get_in_range n (grid e)
              (Z.min (py_int vx) (grid_size e - 1))
              (Z.min (py_int vy) (grid_size e - 1))
              S ltac:(lia) ltac:(lia)) as [b ->].
  eauto.
Qed.

Lemma mean_in_unit (a b : Z) :
  (1 <= a)%Z -> (1 <= b)%Z ->
  0 <= Qabs ((5 # 10) - inject_Z a / inject_Z (a + b))
  /\ Qabs ((5 # 10) - inject_Z a / inject_Z (a + b)) <= 1.
Proof.
  intros A B. split; [apply Qabs_nonneg|].
  assert (T : 0 < inject_Z (a + b)).
  { change 0 with (inject_Z 0). rewrite <- Zlt_Qlt. lia. }
  assert (L : 0 <= inject_Z a / inject_Z (a + b)).
  { apply Qle_shift_div_l; [exact T|]. rewrite Qmult_0_l.
    change 0 with (inject_Z 0). rewrite <- Zle_Qle. lia. }
  assert (U : inject_Z a / inject_Z (a + b) <= 1).
  { apply Qle_shift_div_r; [exact T|]. rewrite Qmult_1_l.
    rewrite <- Zle_Qle. lia. }
  apply Qabs_Qle_condition. split; lra.
Qed.

Lemma calculateMessage_ok (r : SimpleRobot) (raw : Z) (d : Draws) :
  pow_ok -> 0 <= us_exponent r ->
  (1 <= alpha r)%Z -> (1 <= beta r)%Z ->
  exists m, calculateMessage r raw d = inr m.
Proof.
  intros P U A B. unfold calculateMessage.
  destruct (feedback_strategy r); [eauto| |].
  - destruct (decision_flag r =? -1)%Z; eauto.
  - replace (((alpha r + beta r) ^ 2 * (alpha r + beta r + 1) =? 0)%Z
             || (alpha r + beta r =? 0)%Z) with false.
    2:{ symmetry. apply orb_false_iff. split; apply Z.eqb_neq; nia. }
    destruct (mean_in_unit (alpha r) (beta r) A B) as [L H].
    destruct (P _ (us_exponent r) L H U) as [v ->]. eauto.
Qed.

(** With the Beta parameters at least 1, a float power that is safe on
    [0, 1] and an exponent that is not negative, and, when there is an
    environment, a square grid of positive size under a robot inside the
    arena, a step raises nothing. *)
Lemma update_no_error (r : SimpleRobot) (q : Queue) (dt : Q) (d : Draws) :
  pow_ok -> 0 <= us_exponent r ->
  belief_inv r -> env_ok r -> in_arena r ->
  error_of (update r q dt d) = None.
Proof.
  intros P U B E A.
  apply (drain_keeps_belief_inv r q) in B. destruct B as (_ & A1 & B1).
  destruct (pre_dispatch_frame r q dt)
    as (_ & _ & _ & _ & _ & _ & A0 & B0 & _).
  destruct (pre_dispatch_config r q dt) as (C0 & X0 & Y0 & _).
  destruct C0 as (E0 & _ & _ & _ & _ & _ & _ & _ & _ & _ & U0 & _).
  assert (E' : env_ok (pre_dispatch r q dt))
    by (unfold env_ok in *; rewrite E0; exact E).
  assert (A' : in_arena (pre_dispatch r q dt))
    by (unfold in_arena in *; rewrite X0, Y0; exact A).
  pose proof (update_shape r q dt d) as H. cbv zeta in H.
  destruct (state r).
  - apply H.
  - apply H.
  - destruct H as [(e & O & _)|(o & _ & _ & _ & Er)]; [|exact Er].
    destruct (getObservation_ok (pre_dispatch r q dt) d E' A') as [o O'].
    congruence.
  - destruct H as [(e & C & _)|(m & _ & _ & _ & Er)]; [|exact Er].
    destruct (calculateMessage_ok (pre_dispatch r q dt) (raw_message r) d)
      as [m C']; [exact P|rewrite U0; exact U|lia|lia|congruence].
  - apply H.
Qed.

End NoRaise.



Lemma broadcast_measurement_witness :
  fst (get_last_measurement
         (robot_of (update sender_robot three_entries (1 # 10) unit_draws)))
  = Some (mkMeasurement (Some 0%Z) (1 # 2) (1 # 2) 0%Z
            (get_belief_confidence
               (robot_of (update sender_robot three_entries (1 # 10)
                            unit_draws)))
            (get_belief_confidence
               (robot_of (update sender_robot three_entries (1 # 10)
                            unit_draws)))).
Proof.
  apply (proj2 (broadcast_measurement RationalLib sender_robot three_entries
                  (1 # 10) unit_draws) 0%Z).
  reflexivity.
Defined.

(** ** Building the grid *)

Lemma list_set_length {A : Type} (l : list A) :
  forall (k : nat) (v : A), length (list_set l k v) = length l.
Proof.
  induction l as [|h t IH]; intros [|k] v; simpl; auto.
Qed.

Lemma nth_error_list_set {A : Type} (l : list A) :
  forall (k k' : nat) (v : A),
    (k < length l)%nat ->
    nth_error (list_set l k v) k'
    = if (k =? k')%nat then Some v else nth_error l k'.
Proof.
  induction l as [|h t IH]; intros [|k] [|k'] v H; simpl in *; try lia; auto.
  apply IH. lia.
Qed.

Lemma py_position_in_range {A : Type} (l : list A) (i : Z) :
  (0 <= i < Z.of_nat (length l))%Z -> py_position l i = Some (Z.to_nat i).
Proof.
  intro H. unfold py_position.
  replace ((0 <=? i)%Z && (i <? Z.of_nat (length l))%Z) with true
    by (symmetry; apply andb_true_iff; split;
        [apply Z.leb_le|apply Z.ltb_lt]; lia).
  reflexivity.
Qed.

Lemma grid_get_nat (g : list (list bool)) (n : nat) (i j : Z) :
  square_grid n g ->
  (0 <= i < Z.of_nat n)%Z -> (0 <= j < Z.of_nat n)%Z ->
  grid_get g i j
  = match nth_error g (Z.to_nat i) with
    | Some row => nth_error row (Z.to_nat j)
    | None => None
    end.
Proof.
  intros [L F] Hi Hj. unfold grid_get.
  destruct (py_index_in_range g i) as [-> [row R]]; [lia|].
  rewrite R.
  assert (length row = n).
  { rewrite Forall_forall in F. apply F. eapply nth_error_In; exact R. }
  destruct (py_index_in_range row j) as [-> _]; [lia|]. reflexivity.
Qed.

(** Writing [True] into a cell of a square grid: the grid keeps its shape,
    the cell reads [True], every other cell reads as before. *)
Lemma grid_set_true_spec (n : nat) (g : list (list bool)) (i j : Z) :
  square_grid n g ->
  (0 <= i < Z.of_nat n)%Z -> (0 <= j < Z.of_nat n)%Z ->
  exists g',
    grid_set_true g i j = Some g' /\ square_grid n g'
    /\ forall i' j',
         (0 <= i' < Z.of_nat n)%Z -> (0 <= j' < Z.of_nat n)%Z ->
         grid_get g' i' j'
         = if ((i =? i') && (j =? j'))%Z then Some true
           else grid_get g i' j'.
Proof.
  intros S Hi Hj. pose proof S as [L F].
  unfold grid_set_true.
  rewrite (py_position_in_range g i) by lia.
  destruct (nth_error g (Z.to_nat i)) as [row|] eqn:R.
  2:{ apply nth_error_None in R. lia. }
  assert (Lr : length row = n).
  { rewrite Forall_forall in F. apply F. eapply nth_error_In; exact R. }
  rewrite (py_position_in_range row j) by lia.
  eexists. split; [reflexivity|].
  assert (S' : square_grid n
                 (list_set g (Z.to_nat i) (list_set row (Z.to_nat j) true))).
  { split; [rewrite list_set_length; exact L|].
    rewrite Forall_forall in *. intros r' Hin.
    apply In_nth_error in Hin as [k Hk].
    rewrite nth_error_list_set in Hk by lia.
    destruct (Z.to_nat i =? k)%nat.
    - inversion Hk; subst. rewrite list_set_length. exact Lr.
    - apply F. eapply nth_error_In; exact Hk. }
  split; [exact S'|].
  intros i' j' Hi' Hj'.
  rewrite (grid_get_nat _ n i' j' S' Hi' Hj').
  rewrite (grid_get_nat _ n i' j' S Hi' Hj').
  rewrite nth_error_list_set by lia.
  destruct (Z.to_nat i =? Z.to_nat i')%nat eqn:Ei.
  - apply Nat.eqb_eq in Ei.
    assert (i = i') by lia. subst i'. rewrite Z.eqb_refl, R. simpl.
    rewrite nth_error_list_set by lia.
    destruct (Z.to_nat j =? Z.to_nat j')%nat eqn:Ej.
    + apply Nat.eqb_eq in Ej. assert (j = j') by lia. subst j'.
      rewrite Z.eqb_refl. reflexivity.
    + apply Nat.eqb_neq in Ej.
      replace (j =? j')%Z with false
        by (symmetry; apply Z.eqb_neq; intro; subst; lia).
      reflexivity.
  - apply Nat.eqb_neq in Ei.
    replace (i =? i')%Z with false
      by (symmetry; apply Z.eqb_neq; intro; subst; lia).
    reflexivity.
Qed.

Lemma mark_vibrating_spec (n : nat) (ps : list (Z * Z)) :
  forall (g : list (list bool)) (f : Z -> Z -> bool),
    square_grid n g ->
    Forall (fun p => (0 <= fst p < Z.of_nat n)%Z
                     /\ (0 <= snd p < Z.of_nat n)%Z) ps ->
    (forall i j, (0 <= i < Z.of_nat n)%Z -> (0 <= j < Z.of_nat n)%Z ->
                 grid_get g i j = Some (f i j)) ->
    exists g',
      mark_vibrating g ps = Some g' /\ square_grid n g'
      /\ forall i j,
           (0 <= i < Z.of_nat n)%Z -> (0 <= j < Z.of_nat n)%Z ->
           grid_get g' i j = Some (f i j || sampled ps i j).
Proof.
  induction ps as [|[pi pj] ps IH]; intros g f S P G.
  - exists g. split; [reflexivity|]. split; [exact S|].
    intros i j Hi Hj. rewrite (G i j Hi Hj). simpl. rewrite orb_false_r.
    reflexivity.
  - inversion P as [|? ? [Pi Pj] P']; subst. cbn [fst snd] in Pi, Pj.
    cbn [mark_vibrating].
    destruct (grid_set_true_spec n g pi pj S Pi Pj) as (g1 & -> & S1 & G1).
    destruct (IH g1 (fun i j => f i j || ((pi =? i) && (pj =? j))%Z) S1 P')
      as (g' & M & S' & G').
    { intros i j Hi Hj. rewrite (G1 i j Hi Hj), (G i j Hi Hj).
      destruct ((pi =? i) && (pj =? j))%Z;
        [rewrite orb_true_r|rewrite orb_false_r]; reflexivity. }
    exists g'. split; [exact M|]. split; [exact S'|].
    intros i j Hi Hj. rewrite (G' i j Hi Hj). cbn [sampled existsb fst snd].
    rewrite orb_assoc. reflexivity.
Qed.

Lemma np_zeros_spec (n : nat) :
  np_zeros (Z.of_nat n) = inr (repeat (repeat false n) n)
  /\ square_grid n (repeat (repeat false n) n)
  /\ forall i j, (0 <= i < Z.of_nat n)%Z -> (0 <= j < Z.of_nat n)%Z ->
                 grid_get (repeat (repeat false n) n) i j = Some false.
Proof.
  assert (S : square_grid n (repeat (repeat false n) n)).
  { split; [apply repeat_length|].
    rewrite Forall_forall. intros row H. apply repeat_spec in H. subst.
    apply repeat_length. }
  split; [|split; [exact S|]].
  - unfold np_zeros. replace (Z.of_nat n <? 0)%Z with false
      by (symmetry; apply Z.ltb_ge; lia).
    rewrite Nat2Z.id. reflexivity.
  - intros i j Hi Hj. rewrite (grid_get_nat _ n i j S Hi Hj).
    rewrite nth_error_repeat by lia. apply nth_error_repeat. lia.
Qed.

Lemma SimpleEnvironment_init_spec :
  forall (n : nat) (d : EnvDraws),
    (0 <= randint d <= Z.of_nat n * Z.of_nat n)%Z ->
    Forall (fun p => (0 <= fst p < Z.of_nat n)%Z
                     /\ (0 <= snd p < Z.of_nat n)%Z) (sample d) ->
    exists e,
      SimpleEnvironment_init (Z.of_nat n) d = inr e
      /\ grid_size e = Z.of_nat n /\ square_grid n (grid e)
      /\ forall i j,
           (0 <= i < Z.of_nat n)%Z -> (0 <= j < Z.of_nat n)%Z ->
           grid_get (grid e) i j = Some (sampled (sample d) i j).
Proof.
  intros n d R P. unfold SimpleEnvironment_init. cbv zeta.
  pose proof (py_int_fraction_mono (Z.of_nat n * Z.of_nat n) ltac:(lia)) as M.
  apply Z.ltb_ge in M. rewrite M.
  destruct (np_zeros_spec n) as (-> & S & G).
  rewrite Nat2Z.id.
  replace ((randint d <? 0)%Z || (Z.of_nat (n * n) <? randint d)%Z)
    with false
    by (symmetry; apply orb_false_iff; split; apply Z.ltb_ge; lia).
  destruct (mark_vibrating_spec n (sample d) _ (fun _ _ => false) S P G)
    as (g' & -> & S' & G').
  eexists. split; [reflexivity|]. cbn [grid_size grid].
  split; [reflexivity|]. split; [exact S'|exact G'].
Qed.



(** X14. Observing on a constructed environment.  Take a robot whose
    environment was built with a positive grid size [n] and valid draws, and
    whose float products [x * n] and [y * n] are finite and not negative.
    The robot observes without raising, and what it observes is whether the
    cell under it was sampled: the cell whose indices are [int] of those
    two products, each capped at [n - 1]. *)
Theorem observation_reads_sampled_cell :
  forall (lib : NumLib) (n : nat) (d : EnvDraws) (e : SimpleEnvironment)
         (r : SimpleRobot) (dr : Draws) (vx vy : Q),
    (1 <= n)%nat ->
    (0 <= randint d <= Z.of_nat n * Z.of_nat n)%Z ->
    Forall (fun p => (0 <= fst p < Z.of_nat n)%Z
                     /\ (0 <= snd p < Z.of_nat n)%Z) (sample d) ->
    SimpleEnvironment_init (Z.of_nat n) d = inr e ->
    env r = Some e ->
    float_mul (x r) (inject_Z (Z.of_nat n)) = Some vx -> 0 <= vx ->
    float_mul (y r) (inject_Z (Z.of_nat n)) = Some vy -> 0 <= vy ->
    getObservation r dr
    = inr (sampled (sample d)
             (Z.min (py_int vx) (Z.of_nat n - 1))
             (Z.min (py_int vy) (Z.of_nat n - 1))).
Proof.
  intros lib n d e r dr vx vy N R P I E Mx Vx My Vy.
  destruct (SimpleEnvironment_init_spec n d R P) as (e' & I' & Gs & _ & G).
  rewrite I in I'. inversion I'; subst e'.
  unfold getObservation. rewrite E, Gs, Mx, My.
  pose proof (py_int_of_nonneg vx Vx). pose proof (py_int_of_nonneg vy Vy).
  rewrite G by lia. reflexivity.
Qed.

Lemma observation_reads_sampled_cell_witness :
  getObservation
    (SimpleRobot_init (1 # 4) 1
       (Some (mkEnv 2 [[false; true]; [false; true]])) (Some 0%Z) 0)
    unit_draws
  = inr true.
Proof.
  apply (observation_reads_sampled_cell RationalLib 2
           (mkEnvDraws 2 [(0, 1); (1, 1)]%Z)
           (mkEnv 2 [[false; true]; [false; true]])
           (SimpleRobot_init (1 # 4) 1
              (Some (mkEnv 2 [[false; true]; [false; true]])) (Some 0%Z) 0)
           unit_draws ((1 # 4) * inject_Z 2) (1 * inject_Z 2)).
  - lia.
  - cbn. lia.
  - repeat constructor; cbn; lia.
  - reflexivity.
  - reflexivity.
  - reflexivity.
  - vm_compute. discriminate.
  - reflexivity.
  - vm_compute. discriminate.
Defined.

(** ** The vibrating ratio *)

Lemma count_true_bounds (n : nat) (g : list (list bool)) :
  Forall (fun row => length row = n) g ->
  (0 <= count_true g <= Z.of_nat (length g) * Z.of_nat n)%Z.
Proof.
  induction 1 as [|row g L F IH]; unfold count_true in *;
    cbn [fold_right length]; [lia|].
  rewrite Nat2Z.inj_succ. pose proof (filter_length_le id row). nia.
Qed.

(** X15. On a square grid of positive size [get_vibrating_ratio] is a
    percentage: a finite value between 0 and 100. *)
Theorem get_vibrating_ratio_is_percentage :
  forall (n : nat) (e : SimpleEnvironment),
    (1 <= n)%nat -> grid_size e = Z.of_nat n -> square_grid n (grid e) ->
    exists v, get_vibrating_ratio e = Some v /\ 0 <= v /\ v <= 100.
Proof.
  intros n e N G [L F]. unfold get_vibrating_ratio. cbv zeta.
  rewrite G.
  replace (Z.of_nat n * Z.of_nat n =? 0)%Z with false
    by (symmetry; apply Z.eqb_neq; nia).
  eexists. split; [reflexivity|].
  pose proof (count_true_bounds n (grid e) F) as [C0 C1]. rewrite L in C1.
  assert (T : 0 < inject_Z (Z.of_nat n * Z.of_nat n)).
  { change 0 with (inject_Z 0). rewrite <- Zlt_Qlt. nia. }
  assert (V0 : 0 <= inject_Z (count_true (grid e))
                    / inject_Z (Z.of_nat n * Z.of_nat n)).
  { apply Qle_shift_div_l; [exact T|]. rewrite Qmult_0_l.
    change 0 with (inject_Z 0). rewrite <- Zle_Qle. exact C0. }
  assert (V1 : inject_Z (count_true (grid e))
               / inject_Z (Z.of_nat n * Z.of_nat n) <= 1).
  { apply Qle_shift_div_r; [exact T|]. rewrite Qmult_1_l.
    rewrite <- Zle_Qle. exact C1. }
  split; lra.
Qed.

Lemma get_vibrating_ratio_is_percentage_witness :
  exists v,
    get_vibrating_ratio (mkEnv 2 [[false; true]; [false; true]]) = Some v
    /\ 0 <= v /\ v <= 100.
Proof.
  apply (get_vibrating_ratio_is_percentage 2
           (mkEnv 2 [[false; true]; [false; true]])).
  - lia.
  - reflexivity.
  - split; [reflexivity|]. repeat constructor.
Defined.

(** ** Numbers of the controller *)

(** X16. The step length of a move is always within its band: at least
    0.005 and at most 0.3, whatever the Cauchy variate drawn; a scaled
    variate that already lies in the band is used as it is. *)
Theorem step_length_in_band :
  forall (r : SimpleRobot) (d : Draws),
    (5 # 1000 <= step_length r d /\ step_length r d <= 3 # 10)
    /\ (5 # 1000 <= Qabs (standard_cauchy d) * levy_scale r ->
        Qabs (standard_cauchy d) * levy_scale r <= 3 # 10 ->
        step_length r d == Qabs (standard_cauchy d) * levy_scale r).
Proof.
  intros r d. unfold step_length, np_clip.
  set (v := Qabs (standard_cauchy d) * levy_scale r).
  destruct (Q.max_spec v (5 # 1000)) as [[H1 E1]|[H1 E1]];
    destruct (Q.min_spec (Qmax v (5 # 1000)) (3 # 10)) as [[H2 E2]|[H2 E2]];
    rewrite E2; rewrite ?E1 in *; repeat split; intros; lra.
Qed.

Lemma step_length_in_band_witness :
  step_length centre_robot unit_draws == 5 # 100.
Proof.
  refine (proj2 (step_length_in_band centre_robot unit_draws) _ _);
    vm_compute; discriminate.
Defined.

Lemma binom_diag (n : nat) : binom n n = 1%Z.
Proof.
  induction n as [|n IH]; simpl; [reflexivity|].
  rewrite IH, binom_above by lia. reflexivity.
Qed.

Lemma binom_tail_last (n : nat) : binom_tail n n = 1%Z.
Proof.
  unfold binom_tail. replace (S n - n)%nat with 1%nat by lia.
  simpl. rewrite binom_diag. reflexivity.
Qed.

Lemma ones_repeat (k : nat) :
  ones (repeat 1%Z k) = Z.of_nat k /\ others (repeat 1%Z k) = 0%Z
  /\ ones (repeat 0%Z k) = 0%Z /\ others (repeat 0%Z k) = Z.of_nat k.
Proof.
  induction k as [|k (A & B & C & D)]; [repeat split|].
  cbn [repeat]. rewrite !ones_cons, !others_cons, A, B, C, D.
  cbn [Z.eqb Pos.eqb]. repeat split; lia.
Qed.

(** X17. Unanimous evidence.  After [k] receipts of the bit 1 from the prior
    the belief value is [(1/2)^(k+1)]; after [k] receipts of the bit 0 it is
    [1 - (1/2)^(k+1)]. *)
Theorem unanimous_belief_value :
  forall (k : nat) (x0 y0 : Q) (env0 : option SimpleEnvironment)
         (id0 : option Z) (direction0 : Q),
    let prior := SimpleRobot_init x0 y0 env0 id0 direction0 in
    let r1 := recv_all (repeat 1%Z k) prior in
    let r0 := recv_all (repeat 0%Z k) prior in
    beta_dist_cdf (NumLib := RationalLib) (5 # 10) (alpha r1) (beta r1)
    == qpow (1 # 2) (S k)
    /\ beta_dist_cdf (NumLib := RationalLib) (5 # 10) (alpha r0) (beta r0)
       == 1 - qpow (1 # 2) (S k).
Proof.
  intros k x0 y0 env0 id0 direction0 prior r1 r0.
  destruct (ones_repeat k) as (A & B & C & D).
  destruct (recv_all_flip (repeat 1%Z k) prior) as (_ & _ & A1 & B1).
  destruct (recv_all_flip (repeat 0%Z k) prior) as (_ & _ & A0 & B0).
  fold r1 in A1, B1. fold r0 in A0, B0.
  rewrite A1, B1, A0, B0, A, B, C, D.
  unfold prior. cbn [alpha beta SimpleRobot_init beta_dist_cdf RationalLib].
  assert (H : beta_cdf_exact (5 # 10) (1 + Z.of_nat k) 1
              == qpow (1 # 2) (S k)).
  { rewrite beta_cdf_exact_half by lia.
    replace (Z.to_nat (1 + Z.of_nat k + 1 - 1)) with (S k) by lia.
    replace (Z.to_nat (1 + Z.of_nat k)) with (S k) by lia.
    rewrite binom_tail_last. ring. }
  replace (1 + 0)%Z with 1%Z by lia.
  split; [exact H|].
  pose proof (beta_cdf_exact_swap (1 + Z.of_nat k) 1 ltac:(lia) ltac:(lia))
    as S.
  rewrite H in S. lra.
Qed.

(** ** The simulation as a whole *)

Section SafeRuns.

Context {lib : NumLib}.

Hypothesis power_safe : pow_ok.

Lemma sim_safe_grow (q tail : Queue) (r : SimpleRobot) :
  sim_safe q r -> sim_safe (q ++ tail) r.
Proof.
  intros [I E]. split; [apply sim_inv_grow; exact I|exact E].
Qed.

Lemma update_keeps_sim_safe (r : SimpleRobot) (q : Queue) (dt : Q)
    (d : Draws) :
  sim_safe q r ->
  sim_safe (queue_of (update r q dt d)) (robot_of (update r q dt d))
  /\ error_of (update r q dt d) = None
  /\ exists tail, queue_of (update r q dt d) = q ++ tail
                  /\ (length tail <= 1)%nat.
Proof.
  intros (I & E & U). pose proof I as (C & A & B).
  destruct (update_keeps_sim_inv r q dt d I) as [I' _].
  destruct (update_same_config lib r q dt d)
    as (Ec & _ & _ & _ & _ & _ & _ & _ & _ & _ & Uc & _).
  destruct (update_cursor lib r q dt d C) as (_ & _ & T & _).
  split; [split; [exact I'|split]|split].
  - unfold env_ok in *. rewrite Ec. exact E.
  - rewrite Uc. exact U.
  - apply update_no_error; assumption.
  - destruct T as [->|[m ->]].
    + exists []. rewrite app_nil_r. simpl. auto.
    + eexists. split; [reflexivity|]. simpl. lia.
Qed.

Lemma get_last_measurement_safe (q : Queue) (r : SimpleRobot) :
  sim_safe q r -> sim_safe q (snd (get_last_measurement r)).
Proof.
  unfold get_last_measurement. destruct (last_measurement r); auto.
Qed.

Lemma update_sim_safe (robots : list SimpleRobot) :
  forall (q : Queue) (draws : nat -> Draws) (i : nat),
    Forall (sim_safe q) robots ->
    snd (update_sim robots q draws i) = None
    /\ Forall (sim_safe (snd (fst (update_sim robots q draws i))))
              (fst (fst (update_sim robots q draws i)))
    /\ length (fst (fst (update_sim robots q draws i))) = length robots
    /\ exists tail,
         snd (fst (update_sim robots q draws i)) = q ++ tail
         /\ (length tail <= length robots)%nat.
Proof.
  induction robots as [|r rest IH]; intros q draws i H; cbn [update_sim].
  - cbn. repeat split; auto. exists []. rewrite app_nil_r. auto.
  - inversion H as [|? ? Hr Hrest]; subst.
    destruct (update_keeps_sim_safe r q (1 # 10) (draws i) Hr)
      as (Hr' & Er & tail & T & Lt).
    destruct (update r q (1 # 10) (draws i)) as [[r' q'] e].
    unfold robot_of, queue_of, error_of in *. cbn [fst snd] in *.
    subst q' e.
    assert (Hrest' : Forall (sim_safe (q ++ tail)) rest)
      by (eapply Forall_impl; [|exact Hrest]; intros a; apply sim_safe_grow).
    destruct (IH (q ++ tail) draws (S i) Hrest')
      as (Es & F & Ln & tail' & T' & Lt').
    destruct (update_sim rest (q ++ tail) draws (S i)) as [[rest' q''] e].
    cbn [fst snd] in *. subst q'' e.
    split; [reflexivity|]. split; [|split].
    + constructor; [|exact F].
      apply sim_safe_grow, get_last_measurement_safe. exact Hr'.
    + simpl. rewrite Ln. reflexivity.
    + exists (tail ++ tail'). split; [symmetry; apply app_assoc|].
      rewrite length_app. simpl. lia.
Qed.

Lemma simulate_safe (frames : nat) :
  forall (frame : nat) (robots : list SimpleRobot) (q : Queue)
         (draws : nat -> nat -> Draws),
    Forall (sim_safe q) robots ->
    snd (simulate frames frame robots q draws) = None
    /\ Forall (sim_safe (snd (fst (simulate frames frame robots q draws))))
              (fst (fst (simulate frames frame robots q draws)))
    /\ length (fst (fst (simulate frames frame robots q draws)))
       = length robots
    /\ exists tail,
         snd (fst (simulate frames frame robots q draws)) = q ++ tail.
Proof.
  induction frames as [|frames IH]; intros frame robots q draws H;
    cbn [simulate].
  - cbn. repeat split; auto. exists []. rewrite app_nil_r. auto.
  - destruct (any_decided robots).
    + cbn. repeat split; auto. exists []. rewrite app_nil_r. auto.
    + destruct (update_sim_safe robots q (draws frame) 0%nat H)
        as (E & F & Ln & tail & T & _).
      destruct (update_sim robots q (draws frame) 0) as [[robots' q'] e].
      cbn [fst snd] in *. subst q' e.
      destruct (IH (S frame) robots' (q ++ tail) draws F)
        as (E' & F' & Ln' & tail' & T').
      split; [exact E'|]. split; [exact F'|]. split; [congruence|].
      exists (tail ++ tail'). rewrite T'. symmetry. apply app_assoc.
Qed.

End SafeRuns.


Lemma centre_robot_sim_safe : sim_safe (lib := RationalLib) [] centre_robot.
Proof.
  split; [|split; [exact I|vm_compute; discriminate]].
  unfold sim_inv, in_arena, belief_inv, Qle; cbn. lia.
Defined.




(** ** The field sampler *)

Lemma py_int_fraction_above (n : Z) :
  (0 <= n)%Z ->
  (py_int (inject_Z n * (4 # 10)) < py_int (inject_Z n * (6 # 10)) + 1)%Z.
Proof.
  intro H. unfold py_int. cbn [Qnum Qden Qmult inject_Z].
  assert (n * 4 ÷ Z.pos (1 * 10) <= n * 6 ÷ Z.pos (1 * 10))%Z
    by (apply Z.quot_le_mono; lia).
  lia.
Qed.





(** ** Receipts compose *)

Lemma pending_app (r : SimpleRobot) (q1 q2 : Queue) :
  (last_msg_index r <= length q1)%nat ->
  pending r (q1 ++ q2)
  = pending r q1
    ++ filter (fun m => id_differs (fst m) (robot_id r)) q2.
Proof.
  intro L. unfold pending. rewrite skipn_app.
  replace (last_msg_index r - length q1)%nat with 0%nat by lia.
  simpl. apply filter_app.
Qed.

Lemma recv_entries_id (l : list Message) :
  forall r : SimpleRobot,
    robot_id (fold_left recv_entry l r) = robot_id r.
Proof.
  induction l as [|m l IH]; intro r; [reflexivity|].
  simpl. rewrite IH. apply (proj2 (recvSample_cursor r (snd m))).
Qed.

(** X23. Draining in two steps is draining at once: a drain of a queue
    followed by a drain of the same queue grown by further entries leaves
    the robot that a single drain of the grown queue leaves.  No entry is
    delivered twice and none is lost between the two. *)
Theorem drain_in_two_steps :
  forall (r : SimpleRobot) (q1 q2 : Queue),
    (last_msg_index r <= length q1)%nat ->
    drain (drain r q1) (q1 ++ q2) = drain r (q1 ++ q2).
Proof.
  intros r q1 q2 L.
  rewrite (drain_spec r (q1 ++ q2)) by (rewrite length_app; lia).
  rewrite (pending_app r q1 q2 L), fold_left_app.
  rewrite (drain_spec r q1 L).
  set (r1 := fold_left recv_entry (pending r q1) r).
  rewrite drain_spec
    by (cbn [last_msg_index set_last_msg_index]; rewrite length_app; lia).
  unfold pending at 1.
  cbn [last_msg_index robot_id set_last_msg_index].
  rewrite skipn_app, skipn_all, Nat.sub_diag. simpl skipn at 1.
  rewrite app_nil_l.
  rewrite recv_entries_cursor, set_last_msg_index_twice.
  subst r1. rewrite recv_entries_id. reflexivity.
Qed.

Lemma drain_in_two_steps_witness :
  drain (drain centre_robot [(Some 1%Z, 1%Z)]) three_entries
  = drain centre_robot three_entries.
Proof.
  apply (drain_in_two_steps centre_robot [(Some 1%Z, 1%Z)]
           [(Some 0%Z, 0%Z); (Some 2%Z, 0%Z)]).
  cbn. lia.
Defined.

Lemma recv_all_shape (bits : list Z) :
  forall r : SimpleRobot,
    exists a b c,
      recv_all bits r = set_alpha a (set_beta b (set_recvs c r)).
Proof.
  induction bits as [|b0 bits IH]; intro r.
  - exists (alpha r), (beta r), (recvs r). destruct r; reflexivity.
  - unfold recv_all in *. cbn [fold_left].
    destruct (IH (recvSample r b0)) as (a & b & c & ->).
    exists a, b, c. unfold recvSample. destruct (b0 =? 1)%Z; reflexivity.
Qed.

Lemma recv_all_recvs (bits : list Z) :
  forall r : SimpleRobot,
    recvs (recv_all bits r) = (recvs r + Z.of_nat (length bits))%Z.
Proof.
  induction bits as [|b0 bits IH]; intro r.
  - unfold recv_all. simpl. lia.
  - unfold recv_all in *. cbn [fold_left]. rewrite IH.
    destruct (recvSample_effect r b0) as (_ & _ & _ & ->).
    simpl length. lia.
Qed.

Lemma ones_others_perm (l l' : list Z) :
  Permutation l l' -> ones l = ones l' /\ others l = others l'.
Proof.
  induction 1 as [|a l l' P [IH1 IH2]|a b l|l l' l'' P1 [A1 A2] P2 [B1 B2]].
  - auto.
  - rewrite !ones_cons, !others_cons, IH1, IH2. auto.
  - rewrite !ones_cons, !others_cons. split; lia.
  - split; congruence.
Qed.

(** X24. The order of receipts does not matter: two sequences of bits that
    are permutations of each other leave the same robot. *)
Theorem recv_order_is_irrelevant :
  forall (bits bits' : list Z) (r : SimpleRobot),
    Permutation bits bits' -> recv_all bits r = recv_all bits' r.
Proof.
  intros bits bits' r P.
  destruct (recv_all_shape bits r) as (a & b & c & E).
  destruct (recv_all_shape bits' r) as (a' & b' & c' & E').
  destruct (recv_all_flip bits r) as (_ & _ & A & B).
  destruct (recv_all_flip bits' r) as (_ & _ & A' & B').
  pose proof (recv_all_recvs bits r) as R.
  pose proof (recv_all_recvs bits' r) as R'.
  destruct (ones_others_perm bits bits' P) as [O1 O2].
  rewrite E in A, B, R. rewrite E' in A', B', R'.
  cbn [alpha beta recvs set_alpha set_beta set_recvs] in A, B, R, A', B', R'.
  rewrite E, E', A, B, R, A', B', R', O1, O2, (Permutation_length P).
  reflexivity.
Qed.

Lemma recv_order_is_irrelevant_witness :
  recv_all [1; 0; 0]%Z centre_robot = recv_all [0; 1; 0]%Z centre_robot.
Proof.
  apply (recv_order_is_irrelevant [1; 0; 0]%Z [0; 1; 0]%Z centre_robot).
  apply perm_swap.
Defined.

(** X25. The flag reflects the belief.  After any step that leaves the
    robot with at least [min_swarm_count] sends and receipts, the decision
    flag is the verdict on the Beta parameters the step leaves: 1 if the
    belief value exceeds [p_c]; otherwise 0 if it is below [1 - p_c];
    otherwise -1. *)
Theorem update_flag_reflects_belief :
  forall (lib : NumLib) (r : SimpleRobot) (q : Queue) (dt : Q) (d : Draws),
    let r' := robot_of (update r q dt d) in
    let b := beta_dist_cdf (5 # 10) (alpha r') (beta r') in
    (min_swarm_count r' <= sends r' + recvs r')%Z ->
    (p_c r' < b -> decision_flag r' = 1%Z)
    /\ (b <= p_c r' -> b < 1 - p_c r' -> decision_flag r' = 0%Z)
    /\ (b <= p_c r' -> 1 - p_c r' <= b -> decision_flag r' = (-1)%Z).
Proof.
  intros lib r q dt d r' b N. subst b.
  destruct (update_after_check r q dt d) as (r1 & Q & _).
  pose proof (check_decision_settled r1 _ Q) as S. fold r' in S.
  apply (f_equal decision_flag) in S.
  unfold check_decision in S. apply Z.leb_le in N. rewrite N in S.
  destruct (Qlt_bool (p_c r') _) eqn:A.
  - apply Qlt_bool_iff in A. cbn in S.
    repeat split; intros; try (symmetry; exact S); exfalso; lra.
  - apply Qlt_bool_false in A.
    destruct (Qlt_bool _ (1 - p_c r')) eqn:B.
    + apply Qlt_bool_iff in B. cbn in S.
      repeat split; intros; try (symmetry; exact S); exfalso; lra.
    + apply Qlt_bool_false in B. cbn in S.
      repeat split; intros; try (symmetry; exact S); exfalso; lra.
Qed.

Lemma update_flag_reflects_belief_witness :
  decision_flag
    (robot_of (update (recv_all [0; 0; 0; 0; 0]%Z eager_robot) []
                 (1 # 10) unit_draws)) = 1%Z.
Proof.
  refine (proj1 (update_flag_reflects_belief RationalLib
                   (recv_all [0; 0; 0; 0; 0]%Z eager_robot) [] (1 # 10)
                   unit_draws _) _).
  - vm_compute. discriminate.
  - vm_compute. reflexivity.
Defined.
